(** * Flight schedule parser and query tool: a shallow embedding

    This development embeds [flight_project/flight_parser.py] and states the
    properties of its validator ([parse_csv_file]) and of the query loop of
    [main].

    The program is Python, so the source functions rest on models of the
    built-ins they call:

    - [Text]: Python [str] values as lists of Unicode code points, with the
      string methods the program calls ([strip], [startswith], [split],
      [isalnum], [isupper], [join], [len]);
    - [PyFloat]: the binary64 values of Python's [float], the conversion
      [float(str)] and the comparisons between [int] and [float];
    - [DateTime]: [datetime.strptime(s, "%Y-%m-%d %H:%M")] and the order on
      naive datetimes;
    - [Py]: exceptions, as an error monad;
    - [Json]: the values that [json.load] returns, with subscripting,
      iteration, [==] and [>] on them.

    [Validator] is [parse_csv_file].  [Query] is the query loop of [main] on
    a database of records as [parse_csv_file] builds them, each with its six
    fields.  [Main] is the whole of [main]: the options, the files it reads
    and the outcome of its writes as a parameter, the lines it prints and
    the files it writes as a list of effects, and the query loop on whatever
    [json.load] returned for the database and for the queries; on the
    records of the validator the two loops agree.  [Samples] holds the
    inputs of the examples, and [Lines] and [Keys] name what the further
    properties of the validator and of the query loop speak about.  The
    models of the built-ins follow CPython 3.11. *)

From Stdlib Require Import ZArith NArith QArith Lia String Ascii Bool SpecFloat.
From stdpp Require Import base tactics option list.

Set Default Proof Using "Type".
Local Open Scope N_scope.

(* ===================================================================== *)
(** * Text *)
(* ===================================================================== *)

Module Text.

(** A Python string is a sequence of code points. *)
Definition char := N.
Definition text := list N.

(** String literals of the source file are ASCII; [lit] reads a literal. *)
Definition lit (s : string) : text := map N_of_ascii (list_ascii_of_string s).

(** The part of the Unicode character database the program depends on and
    that is too large to write out: the properties of the code points from
    128 on.  The ASCII part of every classification is given explicitly
    below, so the behaviour on ASCII input does not depend on these tables. *)
Record ucd := {
  ucd_decimal : N -> option N;        (* digit value of a character of category Nd *)
  ucd_alnum : N -> bool;              (* isalpha or isdecimal or isdigit or isnumeric *)
  ucd_lower : N -> bool;              (* Py_UNICODE_ISLOWER *)
  ucd_upper : N -> bool;              (* Py_UNICODE_ISUPPER *)
  ucd_title : N -> bool               (* Py_UNICODE_ISTITLE *)
}.

(** The tables of a text known to be ASCII: no other code point has a
    property. *)
Definition ascii_only : ucd :=
  {| ucd_decimal := fun _ => None;
     ucd_alnum := fun _ => false;
     ucd_lower := fun _ => false;
     ucd_upper := fun _ => false;
     ucd_title := fun _ => false |}.

Definition in_range (lo hi c : N) : bool := (lo <=? c) && (c <=? hi).

Definition is_ascii (c : char) : bool := c <? 128.

(** [Py_UNICODE_ISSPACE]: the whitespace of [str.strip()] and of [\s] in a
    regular expression over [str]. *)
Definition is_space (c : char) : bool :=
  in_range 9 13 c || in_range 28 32 c || (c =? 133) || (c =? 160)
  || (c =? 5760) || in_range 8192 8202 c || (c =? 8232) || (c =? 8233)
  || (c =? 8239) || (c =? 8287) || (c =? 12288).

(** [Py_ISSPACE]: the whitespace of the C locale, used by [float()] once the
    string has been brought to ASCII. *)
Definition is_c_space (c : char) : bool := in_range 9 13 c || (c =? 32).

Definition is_ascii_digit (c : char) : bool := in_range 48 57 c.
Definition is_ascii_upper (c : char) : bool := in_range 65 90 c.
Definition is_ascii_lower (c : char) : bool := in_range 97 122 c.

Section Classes.
Variable U : ucd.

(** [Py_UNICODE_TODECIMAL]; [\d] matches exactly the characters that have
    a decimal value. *)
Definition decimal_value (c : char) : option N :=
  if is_ascii c then (if is_ascii_digit c then Some (c - 48) else None)
  else ucd_decimal U c.

Definition is_decimal (c : char) : bool :=
  match decimal_value c with Some _ => true | None => false end.

Definition is_alnum (c : char) : bool :=
  if is_ascii c then is_ascii_digit c || is_ascii_upper c || is_ascii_lower c
  else ucd_alnum U c.

Definition is_lower (c : char) : bool :=
  if is_ascii c then is_ascii_lower c else ucd_lower U c.

Definition is_upper (c : char) : bool :=
  if is_ascii c then is_ascii_upper c else ucd_upper U c.

Definition is_title (c : char) : bool :=
  if is_ascii c then false else ucd_title U c.

(** [str.isalnum()]: false on the empty string, otherwise every character
    is alphanumeric. *)
Definition isalnum (s : text) : bool :=
  match s with
  | [] => false
  | _ => forallb is_alnum s
  end.

(** The loop of [str.isupper()]: it fails on the first lowercase or
    titlecase character and remembers in [cased] whether an uppercase
    character was seen. *)
Fixpoint isupper_loop (cased : bool) (s : text) : bool :=
  match s with
  | [] => cased
  | c :: s' =>
      if is_lower c || is_title c then false
      else isupper_loop (cased || is_upper c) s'
  end.

(** [str.isupper()], with its shortcut for strings of length one. *)
Definition isupper (s : text) : bool :=
  match s with
  | [] => false
  | [c] => is_upper c
  | _ => isupper_loop false s
  end.
End Classes.

(** [len(s)] *)
Definition len (s : text) : Z := Z.of_nat (length s).

Definition text_eqb (a b : text) : bool := bool_decide (a = b).

Fixpoint lstrip (s : text) : text :=
  match s with
  | c :: s' => if is_space c then lstrip s' else s
  | [] => []
  end.

Definition rstrip (s : text) : text := rev (lstrip (rev s)).

(** [s.strip()] *)
Definition strip (s : text) : text := rstrip (lstrip s).

(** [s.startswith(p)] *)
Fixpoint startswith (s p : text) : bool :=
  match p, s with
  | [], _ => true
  | a :: p', b :: s' => (a =? b) && startswith s' p'
  | _ :: _, [] => false
  end.

(** [s.split(sep)] for a separator of one character: the fields between the
    occurrences of [sep], at least one field. *)
Fixpoint split (sep : char) (s : text) : list text :=
  match s with
  | [] => [[]]
  | c :: s' =>
      if c =? sep then [] :: split sep s'
      else match split sep s' with
           | f :: fs => (c :: f) :: fs
           | [] => [[c]]
           end
  end.

(** [sep.join(parts)] *)
Fixpoint join (sep : text) (parts : list text) : text :=
  match parts with
  | [] => []
  | [p] => p
  | p :: ps => p ++ sep ++ join sep ps
  end.

(** [str(n)] for an integer [n >= 0], as used by an f-string. *)
Fixpoint digits_of_uint (d : Decimal.uint) : text :=
  match d with
  | Decimal.Nil => []
  | Decimal.D0 d' => 48 :: digits_of_uint d'
  | Decimal.D1 d' => 49 :: digits_of_uint d'
  | Decimal.D2 d' => 50 :: digits_of_uint d'
  | Decimal.D3 d' => 51 :: digits_of_uint d'
  | Decimal.D4 d' => 52 :: digits_of_uint d'
  | Decimal.D5 d' => 53 :: digits_of_uint d'
  | Decimal.D6 d' => 54 :: digits_of_uint d'
  | Decimal.D7 d' => 55 :: digits_of_uint d'
  | Decimal.D8 d' => 56 :: digits_of_uint d'
  | Decimal.D9 d' => 57 :: digits_of_uint d'
  end.

Definition str_of_nat (n : nat) : text := digits_of_uint (Nat.to_uint n).

End Text.

(* ===================================================================== *)
(** * Python numbers *)
(* ===================================================================== *)

Module PyFloat.
Import Text.

(** A Python [float] is an IEEE 754 binary64 value. *)
Definition float := spec_float.
Definition prec : Z := 53.
Definition emax : Z := 1024.

Definition is_nan (f : float) : bool :=
  match f with S754_nan => true | _ => false end.

Definition is_finite (f : float) : bool :=
  match f with S754_zero _ | S754_finite _ _ _ => true | _ => false end.

(** The binary64 value nearest to [(-1)^neg * d * 10^k] (ties to even), as
    the correctly rounded [strtod] of CPython returns it.  An overflow gives
    an infinity and an underflow a signed zero; no error is raised. *)
Definition of_decimal (neg : bool) (d : N) (k : Z) : float :=
  match d with
  | N0 => S754_zero neg
  | Npos p =>
      match k with
      | Zneg e =>
          let '(mz, ez, lz) :=
            SFdiv_core_binary prec emax (Zpos p) 0 (10 ^ Zpos e)%Z 0 in
          binary_round_aux prec emax neg mz ez lz
      | _ => binary_round prec emax neg (Z.to_pos (Zpos p * 10 ^ k)) 0
      end
  end.

(** ** [float(s)] for a string [s] *)

Section Parse.
Variable U : ucd.

(** [_PyUnicode_TransformDecimalAndSpaceToASCII]: an ASCII string is kept;
    otherwise whitespace becomes a space, a decimal digit its ASCII digit,
    and the first other character from 127 on becomes a question mark that
    ends the string. *)
Fixpoint transform (s : text) : text :=
  match s with
  | [] => []
  | c :: s' =>
      if c <? 127 then c :: transform s'
      else if is_space c then 32 :: transform s'
      else match decimal_value U c with
           | Some d => (48 + d) :: transform s'
           | None => [63]
           end
  end.

Definition to_ascii (s : text) : text :=
  if forallb is_ascii s then s else transform s.
End Parse.

(** [_Py_string_to_number_with_underscores]: an underscore is allowed only
    between two digits; the underscores are then removed.  [prev] is the
    previous character, 0 at the start.  (A string without underscore is
    returned unchanged, as the C function passes it on unchanged.) *)
Fixpoint drop_underscores (prev : char) (s : text) : option text :=
  match s with
  | [] => if prev =? 95 then None else Some []
  | c :: s' =>
      if c =? 95 then
        if is_ascii_digit prev then drop_underscores c s' else None
      else if (prev =? 95) && negb (is_ascii_digit c) then None
      else cons c <$> drop_underscores c s'
  end.

Fixpoint lstrip_c (s : text) : text :=
  match s with
  | c :: s' => if is_c_space c then lstrip_c s' else s
  | [] => []
  end.

(** The whitespace removal of [float_from_string_inner]. *)
Definition strip_c (s : text) : text := rev (lstrip_c (rev (lstrip_c s))).

(** A run of ASCII digits: the number they denote after [acc], how many
    there are, and the rest of the string. *)
Fixpoint digits (acc : N) (count : Z) (s : text) : N * Z * text :=
  match s with
  | c :: s' =>
      if is_ascii_digit c then digits (10 * acc + (c - 48)) (count + 1) s'
      else (acc, count, s)
  | [] => (acc, count, [])
  end.

Definition sign (s : text) : bool * text :=
  match s with
  | 45 :: s' => (true, s')
  | 43 :: s' => (false, s')
  | _ => (false, s)
  end.

Definition lower (c : char) : char := if is_ascii_upper c then c + 32 else c.

(** The exponent part: empty, or [e] or [E], an optional sign and at least
    one digit, up to the end of the string. *)
Definition exponent (s : text) : option Z :=
  match s with
  | [] => Some 0%Z
  | c :: s' =>
      if lower c =? 101 then
        let '(neg, s1) := sign s' in
        match digits 0 0 s1 with
        | (e, n, []) =>
            if (0 <? n)%Z then Some (if neg then (- Z.of_N e)%Z else Z.of_N e)
            else None
        | _ => None
        end
      else None
  end.

(** [PyOS_string_to_double] on a whole string: a decimal number, or [inf],
    [infinity] or [nan] in any case, after an optional sign. *)
Definition string_to_double (s : text) : option float :=
  let '(neg, s0) := sign s in
  let '(i, ni, s1) := digits 0 0 s0 in
  let '(m, nf, s2) :=
    match s1 with
    | 46 :: s1' => digits i 0 s1'
    | _ => (i, 0%Z, s1)
    end in
  if (0 <? ni + nf)%Z then
    match exponent s2 with
    | Some e => Some (of_decimal neg m (e - nf))
    | None => None
    end
  else
    let w := map lower s0 in
    if text_eqb w (lit "inf") || text_eqb w (lit "infinity")
    then Some (S754_infinity neg)
    else if text_eqb w (lit "nan") then Some S754_nan
    else None.

(** [float(s)]: [None] stands for the [ValueError] it raises. *)
Definition float_of_text (U : ucd) (s : text) : option float :=
  match drop_underscores 0 (to_ascii U s) with
  | Some s' => string_to_double (strip_c s')
  | None => None
  end.

(** ** Comparisons

    Python compares an [int] and a [float] by their exact values, and every
    ordered comparison with a NaN is false. *)

Inductive number :=
  | Int (z : Z)
  | Float (f : float).

Inductive ereal :=
  | NegInf
  | Finite (q : Q)
  | PosInf.

Definition float_value (f : float) : option ereal :=
  match f with
  | S754_nan => None
  | S754_infinity s => Some (if s then NegInf else PosInf)
  | S754_zero _ => Some (Finite 0)
  | S754_finite s m e =>
      Some (Finite (inject_Z (cond_Zopp s (Zpos m)) * (2 # 1) ^ e))
  end.

Definition value (x : number) : option ereal :=
  match x with
  | Int z => Some (Finite (inject_Z z))
  | Float f => float_value f
  end.

Definition ereal_ltb (a b : ereal) : bool :=
  match a, b with
  | NegInf, NegInf => false
  | NegInf, _ => true
  | Finite _, NegInf => false
  | Finite p, Finite q => match (p ?= q)%Q with Lt => true | _ => false end
  | Finite _, PosInf => true
  | PosInf, _ => false
  end.

Definition ereal_leb (a b : ereal) : bool := negb (ereal_ltb b a).

(** [a < b], [a > b] and [a <= b] on numbers *)
Definition lt (a b : number) : bool :=
  match value a, value b with
  | Some x, Some y => ereal_ltb x y
  | _, _ => false
  end.

Definition gt (a b : number) : bool := lt b a.

Definition le (a b : number) : bool :=
  match value a, value b with
  | Some x, Some y => ereal_leb x y
  | _, _ => false
  end.

(** [a == b] on numbers *)
Definition eqb (a b : number) : bool :=
  match value a, value b with
  | Some x, Some y => ereal_leb x y && ereal_leb y x
  | _, _ => false
  end.

End PyFloat.

(* ===================================================================== *)
(** * Timestamps *)
(* ===================================================================== *)

Module DateTime.
Import Text.

(** ** The regular expression of a format

    [datetime.strptime] compiles its format into a regular expression with
    one named group per directive and matches it at the start of the string
    with [re.match].  The matcher below is the backtracking matcher of [re]
    for the constructs such an expression uses: alternatives are tried from
    left to right, [+] is greedy, and the first match found is the match.
    (The expression is compiled with [IGNORECASE], which changes nothing for
    digits, [-], [:] and whitespace.) *)

Inductive group := GY | Gm | Gd | GH | GM.

Inductive regex :=
  | Chr (c : char)                    (* this character *)
  | Cls (p : char -> bool)            (* a character class *)
  | Plus (p : char -> bool)           (* one or more of a class, greedy *)
  | Seq (a b : regex)
  | Alt (a b : regex)
  | Grp (g : group) (a : regex).      (* (?P<g>a) *)

Definition captures := list (group * text).

Fixpoint plus_match {R} (p : char -> bool) (s : text)
    (k : text -> option R) : option R :=
  match s with
  | c :: s' =>
      if p c then
        match plus_match p s' k with
        | Some r => Some r
        | None => k s'
        end
      else None
  | [] => None
  end.

Fixpoint rmatch {R} (r : regex) (s : text) (caps : captures)
    (k : text -> captures -> option R) : option R :=
  match r with
  | Chr c =>
      match s with
      | x :: s' => if x =? c then k s' caps else None
      | [] => None
      end
  | Cls p =>
      match s with
      | x :: s' => if p x then k s' caps else None
      | [] => None
      end
  | Plus p => plus_match p s (fun s' => k s' caps)
  | Seq a b => rmatch a s caps (fun s' caps' => rmatch b s' caps' k)
  | Alt a b =>
      match rmatch a s caps k with
      | Some v => Some v
      | None => rmatch b s caps k
      end
  | Grp g a =>
      rmatch a s caps
        (fun s' caps' => k s' ((g, take (length s - length s') s) :: caps'))
  end.

(** [re.match(r, s)]: the captured groups and the unmatched rest of [s]. *)
Definition re_match (r : regex) (s : text) : option (text * captures) :=
  rmatch r s [] (fun rest caps => Some (rest, caps)).

Fixpoint seq_of (rs : list regex) : regex :=
  match rs with
  | [] => Plus (fun _ => false)
  | [r] => r
  | r :: rs' => Seq r (seq_of rs')
  end.

Fixpoint alt_of (rs : list regex) : regex :=
  match rs with
  | [] => Plus (fun _ => false)
  | [r] => r
  | r :: rs' => Alt r (alt_of rs')
  end.

Definition ch (a : ascii) : char := N_of_ascii a.

(** [[a-b]] *)
Definition rng (a b : ascii) : regex := Cls (in_range (ch a) (ch b)).

(** ** Calendar *)

Record datetime := {
  year : Z; month : Z; day : Z; hour : Z; minute : Z
}.

Definition is_leap (y : Z) : bool :=
  ((y mod 4 =? 0) && (negb (y mod 100 =? 0) || (y mod 400 =? 0)))%Z.

Definition days_in_month (y m : Z) : Z :=
  (if m =? 2 then (if is_leap y then 29 else 28)
   else if (m =? 4) || (m =? 6) || (m =? 9) || (m =? 11) then 30
   else 31)%Z.

(** The range checks of the [datetime] constructor; the seconds and
    microseconds of a value built by this format are zero. *)
Definition check_fields (y m d h mi : Z) : bool :=
  ((1 <=? y) && (y <=? 9999) && (1 <=? m) && (m <=? 12)
   && (1 <=? d) && (d <=? days_in_month y m)
   && (0 <=? h) && (h <=? 23) && (0 <=? mi) && (mi <=? 59))%Z.

Definition valid (t : datetime) : bool :=
  check_fields (year t) (month t) (day t) (hour t) (minute t).

(** The order of [datetime]: the fields are compared from the year down. *)
Definition and_then (c d : comparison) : comparison :=
  match c with Eq => d | _ => c end.

Definition compare (a b : datetime) : comparison :=
  (and_then (year a ?= year b)
  (and_then (month a ?= month b)
  (and_then (day a ?= day b)
  (and_then (hour a ?= hour b) (minute a ?= minute b)))))%Z.

Definition ltb (a b : datetime) : bool :=
  match compare a b with Lt => true | _ => false end.
Definition gtb (a b : datetime) : bool :=
  match compare a b with Gt => true | _ => false end.
Definition leb (a b : datetime) : bool :=
  match compare a b with Gt => false | _ => true end.
Definition geb (a b : datetime) : bool :=
  match compare a b with Lt => false | _ => true end.

(** The place of a valid datetime on a line of minutes: months and days are
    given room for 12 and 31 values, so the order of the places is the order
    of the dates. *)
Definition timeline (t : datetime) : Z :=
  ((((year t * 12 + (month t - 1)) * 31 + (day t - 1)) * 24 + hour t) * 60
   + minute t)%Z.

(** ** Timestamps as they are written

    The text of a date and time in the format: the year with four digits,
    and the month, the day, the hour and the minute with two digits each,
    or without the leading zero where [padding] says so. *)
Definition digit (n : Z) : char := Z.to_N (48 + n).

Definition two_digits (n : Z) : text := [digit (n / 10); digit (n mod 10)].

Definition four_digits (n : Z) : text :=
  [digit (n / 1000); digit (n / 100 mod 10); digit (n / 10 mod 10);
   digit (n mod 10)].

Definition number_text (padded : bool) (n : Z) : text :=
  if padded || (10 <=? n)%Z then two_digits n else [digit n].

Record padding := {
  pad_month : bool; pad_day : bool; pad_hour : bool; pad_minute : bool
}.

Definition written (p : padding) (t : datetime) : text :=
  four_digits (year t)
  ++ ch "-" :: number_text (pad_month p) (month t)
  ++ ch "-" :: number_text (pad_day p) (day t)
  ++ ch " " :: number_text (pad_hour p) (hour t)
  ++ ch ":" :: number_text (pad_minute p) (minute t).

Section Strptime.
Variable U : ucd.

(** [\d] and [\s] on [str] *)
Definition d : regex := Cls (is_decimal U).
Definition spaces : regex := Plus is_space.

(** The expression of the format ["%Y-%m-%d %H:%M"]:
    [(?P<Y>\d\d\d\d)-(?P<m>1[0-2]|0[1-9]|[1-9])-]
    [(?P<d>3[0-1]|[1-2]\d|0[1-9]|[1-9]| [1-9])\s+]
    [(?P<H>2[0-3]|[0-1]\d|\d):(?P<M>[0-5]\d|\d)]. *)
Definition format_regex : regex :=
  seq_of [
    Grp GY (seq_of [d; d; d; d]);
    Chr (ch "-");
    Grp Gm (alt_of [Seq (Chr (ch "1")) (rng "0" "2");
                    Seq (Chr (ch "0")) (rng "1" "9");
                    rng "1" "9"]);
    Chr (ch "-");
    Grp Gd (alt_of [Seq (Chr (ch "3")) (rng "0" "1");
                    Seq (rng "1" "2") d;
                    Seq (Chr (ch "0")) (rng "1" "9");
                    rng "1" "9";
                    Seq (Chr (ch " ")) (rng "1" "9")]);
    spaces;
    Grp GH (alt_of [Seq (Chr (ch "2")) (rng "0" "3");
                    Seq (rng "0" "1") d;
                    d]);
    Chr (ch ":");
    Grp GM (alt_of [Seq (rng "0" "5") d; d])
  ].

(** [int(s)] on the text of a group: decimal digits, possibly after
    whitespace.  (A group captures neither a sign nor an underscore.) *)
Fixpoint int_digits (acc : Z) (s : text) : option Z :=
  match s with
  | [] => Some acc
  | c :: s' =>
      match decimal_value U c with
      | Some v => int_digits (10 * acc + Z.of_N v) s'
      | None => None
      end
  end.

Definition int_of_text (s : text) : option Z :=
  match strip s with
  | [] => None
  | s' => int_digits 0 s'
  end.

Definition group_eqb (a b : group) : bool :=
  match a, b with
  | GY, GY | Gm, Gm | Gd, Gd | GH, GH | GM, GM => true
  | _, _ => false
  end.

Fixpoint found (caps : captures) (g : group) : option text :=
  match caps with
  | [] => None
  | (g', s) :: caps' => if group_eqb g g' then Some s else found caps' g
  end.

Definition int_group (caps : captures) (g : group) : option Z :=
  s ← found caps g; int_of_text s.

(** [datetime.strptime(s, "%Y-%m-%d %H:%M")]; [None] stands for the
    [ValueError] raised when the string does not match, when data remains
    after the match, or when the date does not exist. *)
Definition strptime (s : text) : option datetime :=
  match re_match format_regex s with
  | Some ([], caps) =>
      y ← int_group caps GY;
      m ← int_group caps Gm;
      d ← int_group caps Gd;
      h ← int_group caps GH;
      mi ← int_group caps GM;
      if check_fields y m d h mi
      then Some {| year := y; month := m; day := d; hour := h; minute := mi |}
      else None
  | _ => None
  end.
End Strptime.

End DateTime.
(* ===================================================================== *)
(** * Exceptions *)
(* ===================================================================== *)

Module Py.

(** The exceptions the modelled code can raise. *)
Inductive exn := ValueError | TypeError | KeyError | AttributeError.

Inductive result (A : Type) :=
  | Ok (a : A)
  | Raise (e : exn).
Arguments Ok {A} a.
Arguments Raise {A} e.

#[export] Instance result_ret : MRet result := fun A a => Ok a.
#[export] Instance result_bind : MBind result := fun A B f m =>
  match m with
  | Ok a => f a
  | Raise e => Raise e
  end.

(** A library call that raises [ValueError]. *)
Definition or_value_error {A} (o : option A) : result A :=
  match o with
  | Some a => Ok a
  | None => Raise ValueError
  end.

End Py.

(* ===================================================================== *)
(** * The validator: [parse_csv_file] *)
(* ===================================================================== *)

Module Validator.
Import Text PyFloat DateTime Py.

(** The dictionary appended to [valid_flights], and an entry of the
    database. *)
Record flight := {
  flight_id : text;
  origin : text;
  destination : text;
  departure_datetime : text;
  arrival_datetime : text;
  price : number
}.

(** What one iteration of the loop over the lines does. *)
Inductive outcome :=
  | Skipped                     (* [continue], nothing appended *)
  | Notice (entry : text)       (* comment line: [entry] goes to [error_entries] *)
  | Rejected (entry : text)     (* [entry] goes to [error_entries] *)
  | Accepted (f : flight).      (* [f] goes to [valid_flights] *)

(** [" → "] *)
Definition arrow : text := [32; 8594; 32].

(** [f"Line {line_number}: {line} → {what}"] *)
Definition entry (line_number : nat) (line what : text) : text :=
  lit "Line " ++ str_of_nat line_number ++ lit ": " ++ line ++ arrow ++ what.

Section Parse.
Variable U : ucd.

Definition check_airport (code field_name : text) : option text :=
  if negb (len code =? 3)%Z || negb (isupper U code) then
    Some (lit "invalid " ++ field_name ++ lit " code")
  else if text_eqb code (lit "XXX") then
    Some (lit "invalid " ++ field_name ++ lit " code")
  else None.

(** [if r: reasons.append(r)]: [None] and the empty string are false. *)
Definition append_if (r : option text) (reasons : list text) : list text :=
  match r with
  | Some (c :: t) => reasons ++ [c :: t]
  | _ => reasons
  end.

(** The checks on the six fields of a line, in the order of the source;
    each one may append to [reasons]. *)
Definition validate
    (flight_id origin destination dep_str arr_str price_str : text)
    : list text :=
  let reasons := [] in
  (* flight_id validation *)
  let reasons :=
    if negb ((2 <=? len flight_id)%Z && (len flight_id <=? 8)%Z
             && isalnum U flight_id)
    then reasons ++ [lit "invalid flight_id"]
    else reasons in
  (* airport code validation *)
  let r := check_airport origin (lit "origin") in
  let reasons := append_if r reasons in
  let r := check_airport destination (lit "destination") in
  let reasons := append_if r reasons in
  (* datetime validation *)
  let dep_dt := strptime U dep_str in
  let reasons :=
    match dep_dt with
    | Some _ => reasons
    | None => reasons ++ [lit "invalid departure datetime"]
    end in
  let arr_dt := strptime U arr_str in
  let reasons :=
    match arr_dt with
    | Some _ => reasons
    | None => reasons ++ [lit "invalid arrival datetime"]
    end in
  let reasons :=
    match dep_dt, arr_dt with
    | Some dep, Some arr =>
        if DateTime.leb arr dep
        then reasons ++ [lit "arrival before departure"]
        else reasons
    | _, _ => reasons
    end in
  (* price validation *)
  let reasons :=
    match float_of_text U price_str with
    | Some price =>
        if PyFloat.le (Float price) (Int 0)
        then reasons ++ [lit "negative price value"]
        else reasons
    | None => reasons ++ [lit "invalid price"]
    end in
  reasons.

(** The body of the loop for the line [raw_line] at position
    [line_number].  The only call outside a [try] is the second
    [float(price_str)], where the record is built. *)
Definition process_line (line_number : nat) (raw_line : text)
    : result outcome :=
  let line := strip raw_line in
  if text_eqb line [] then Ok Skipped
  else if startswith line (lit "#") then
    Ok (Notice (entry line_number line
                  (lit "comment line, ignored for data parsing")))
  else if startswith line (lit "flight_id") then Ok Skipped
  else
    match split (ch ",") line with
    | [flight_id; origin; destination; dep_str; arr_str; price_str] =>
        match validate flight_id origin destination
                       dep_str arr_str price_str with
        | [] =>
            p ← or_value_error (float_of_text U price_str);
            Ok (Accepted {| flight_id := flight_id;
                            origin := origin;
                            destination := destination;
                            departure_datetime := dep_str;
                            arrival_datetime := arr_str;
                            price := Float p |})
        | reasons =>
            Ok (Rejected (entry line_number line (join (lit ", ") reasons)))
        end
    | _ => Ok (Rejected (entry line_number line
                           (lit "missing required fields")))
    end.

(** The loop of [parse_csv_file] over the lines of the file, numbered
    from [line_number]. *)
Fixpoint parse_lines (line_number : nat) (lines : list text)
    (valid_flights : list flight) (error_entries : list text)
    : result (list flight * list text) :=
  match lines with
  | [] => Ok (valid_flights, error_entries)
  | raw_line :: rest =>
      o ← process_line line_number raw_line;
      match o with
      | Skipped =>
          parse_lines (S line_number) rest valid_flights error_entries
      | Notice e | Rejected e =>
          parse_lines (S line_number) rest valid_flights
                      (error_entries ++ [e])
      | Accepted f =>
          parse_lines (S line_number) rest (valid_flights ++ [f])
                      error_entries
      end
  end.

(** [parse_csv_file(path)], given the lines of the file at [path]. *)
Definition parse_csv_file (lines : list text)
    : result (list flight * list text) :=
  parse_lines 1 lines [] [].

(** ** The checks, one by one

    The condition under which each check of the source passes, as the
    source writes it, and the reasons the source has for a line when every
    one of its checks is looked at on its own: one entry per check, in the
    order in which the checks run. *)

Definition flight_id_ok (fid : text) : bool :=
  (2 <=? len fid)%Z && (len fid <=? 8)%Z && isalnum U fid.

Definition airport_ok (code : text) : bool :=
  (len code =? 3)%Z && isupper U code && negb (text_eqb code (lit "XXX")).

Definition parses (s : text) : bool :=
  match strptime U s with Some _ => true | None => false end.

Definition arrival_not_later (dep_str arr_str : text) : bool :=
  match strptime U dep_str, strptime U arr_str with
  | Some dep, Some arr => DateTime.leb arr dep
  | _, _ => false
  end.

Definition price_not_positive (price_str : text) : bool :=
  match float_of_text U price_str with
  | Some p => PyFloat.le (Float p) (Int 0)
  | None => false
  end.

Definition price_unreadable (price_str : text) : bool :=
  match float_of_text U price_str with
  | Some _ => false
  | None => true
  end.

(** Each check of the source with its reason: the flag says that the check
    fails.  The check on an airport code is the one of [check_airport], with
    [isupper]. *)
Definition checks (fid o d dep arr pr : text) : list (bool * text) :=
  [ (negb (flight_id_ok fid), lit "invalid flight_id");
    (negb (airport_ok o), lit "invalid origin code");
    (negb (airport_ok d), lit "invalid destination code");
    (negb (parses dep), lit "invalid departure datetime");
    (negb (parses arr), lit "invalid arrival datetime");
    (arrival_not_later dep arr, lit "arrival before departure");
    (price_not_positive pr, lit "negative price value");
    (price_unreadable pr, lit "invalid price") ].

Definition applicable_reasons (fid o d dep arr pr : text) : list text :=
  (List.filter fst (checks fid o d dep arr pr)).*2.

(** The airport-code check as the specification words it: a code fails when
    its length is not 3, or some character is not an uppercase letter, or it
    is the sentinel. *)
Definition airport_fails_as_specified (code : text) : bool :=
  negb (len code =? 3)%Z || negb (forallb (is_upper U) code)
  || text_eqb code (lit "XXX").



(** What makes [check_airport] fail, character by character: the length,
    a lowercase or titlecase character, no uppercase character at all, or
    the sentinel.  A character that is no letter, a digit for one, neither
    fails the check nor counts as uppercase. *)
Definition airport_rule_fails (code : text) : Prop :=
  len code <> 3%Z
  \/ Exists (fun c => is_lower U c = true \/ is_title U c = true) code
  \/ Forall (fun c => is_upper U c = false) code
  \/ code = lit "XXX".

(** The properties of a record of [valid_flights] that the checks
    establish.  The price is the value [float] returned; the check on it is
    [price <= 0], which is false for a NaN as well as for a positive value,
    an infinite one included. *)
Definition record_invariants (fl : flight) : Prop :=
  flight_id_ok (flight_id fl) = true
  /\ check_airport (origin fl) (lit "origin") = None
  /\ check_airport (destination fl) (lit "destination") = None
  /\ (exists dep arr,
        strptime U (departure_datetime fl) = Some dep
        /\ strptime U (arrival_datetime fl) = Some arr
        /\ DateTime.gtb arr dep = true)
  /\ (exists p,
        price fl = Float p
        /\ PyFloat.le (Float p) (Int 0) = false
        /\ (is_nan p = false -> PyFloat.gt (Float p) (Int 0) = true)).

(** ** Counting lines by what the loop does with them *)

Definition accepted_at (line_number : nat) (raw_line : text) : bool :=
  match process_line line_number raw_line with
  | Ok (Accepted _) => true
  | _ => false
  end.

Definition rejected_at (line_number : nat) (raw_line : text) : bool :=
  match process_line line_number raw_line with
  | Ok (Rejected _) => true
  | _ => false
  end.
End Parse.


(** The reasons in the order in which the checks run. *)
Definition check_order : list text :=
  [ lit "invalid flight_id"; lit "invalid origin code";
    lit "invalid destination code"; lit "invalid departure datetime";
    lit "invalid arrival datetime"; lit "arrival before departure";
    lit "negative price value"; lit "invalid price" ].

(** The three kinds of line that carry no record, by the guards of the
    loop. *)
Definition is_blank (raw_line : text) : bool := text_eqb (strip raw_line) [].
Definition is_comment (raw_line : text) : bool :=
  startswith (strip raw_line) (lit "#").
Definition is_header (raw_line : text) : bool :=
  startswith (strip raw_line) (lit "flight_id").
Definition is_data (raw_line : text) : bool :=
  negb (is_blank raw_line) && negb (is_comment raw_line)
  && negb (is_header raw_line).

Definition blank_at (_ : nat) (raw_line : text) : bool := is_blank raw_line.
Definition comment_at (_ : nat) (raw_line : text) : bool :=
  is_comment raw_line.
Definition header_at (_ : nat) (raw_line : text) : bool := is_header raw_line.

(** The number of lines, numbered from [line_number] as [enumerate] numbers
    them, that satisfy [p]. *)
Fixpoint count_lines (p : nat -> text -> bool) (line_number : nat)
    (lines : list text) : nat :=
  match lines with
  | [] => 0
  | raw_line :: rest =>
      ((if p line_number raw_line then 1 else 0)
       + count_lines p (S line_number) rest)%nat
  end.

End Validator.
(* ===================================================================== *)
(** * The query loop of [main] *)
(* ===================================================================== *)

Module Query.
Import Text PyFloat DateTime Py Validator.

(** A value read by [json.load]. *)
#[local] Unset Elimination Schemes.
Inductive json :=
  | JNull
  | JBool (b : bool)
  | JInt (z : Z)
  | JFloat (f : float)
  | JStr (s : text)
  | JList (l : list json)
  | JDict (items : list (text * json)).
#[local] Set Elimination Schemes.

(** A predicate set is a dictionary; the loop sees it through [q.items()],
    its keys and values in insertion order. *)
Definition query := list (text * json).

(** An element of [responses]. *)
Record response := {
  resp_query : query;
  resp_matches : list flight
}.

Section Run.
Variable U : ucd.

(** [to_dt(x)]: [strptime] raises [TypeError] unless [x] is a string. *)
Definition to_dt (x : json) : result datetime :=
  match x with
  | JStr s => or_value_error (strptime U s)
  | _ => Raise TypeError
  end.

(** [flight[key]] for the three keys matched exactly *)
Definition exact_field (flight : flight) (key : text) : text :=
  if text_eqb key (lit "flight_id") then flight_id flight
  else if text_eqb key (lit "origin") then origin flight
  else destination flight.

(** [s != value] for a string [s]: a string differs from every value that
    is not a string. *)
Definition str_ne (s : text) (value : json) : bool :=
  match value with
  | JStr s' => negb (text_eqb s s')
  | _ => true
  end.

(** [p > value] for a number [p]: [True] and [False] are the integers 1
    and 0, and a value that is not a number raises [TypeError]. *)
Definition num_gt (p : number) (value : json) : result bool :=
  match value with
  | JInt z => Ok (gt p (Int z))
  | JFloat f => Ok (gt p (Float f))
  | JBool b => Ok (gt p (Int (if b then 1 else 0)))
  | _ => Raise TypeError
  end.

(** One iteration of the loop over [q.items()], for a flight that is a
    record of the validator: the new value of [ok].  ([Main.check_pair] is
    the iteration for any element of a database.) *)
Definition check_item (flight : flight) (ok : bool) (key : text)
    (value : json) : result bool :=
  if text_eqb key (lit "flight_id") || text_eqb key (lit "origin")
     || text_eqb key (lit "destination") then
    Ok (if str_ne (exact_field flight key) value then false else ok)
  else if text_eqb key (lit "price") then
    b ← num_gt (price flight) value;
    Ok (if b : bool then false else ok)
  else if text_eqb key (lit "departure_datetime") then
    a ← to_dt (JStr (departure_datetime flight));
    b ← to_dt value;
    Ok (if DateTime.ltb a b then false else ok)
  else if text_eqb key (lit "arrival_datetime") then
    a ← to_dt (JStr (arrival_datetime flight));
    b ← to_dt value;
    Ok (if DateTime.gtb a b then false else ok)
  else Ok ok.

(** The loop over [q.items()] for one flight; [ok] starts as [True]. *)
Fixpoint check_items (flight : flight) (ok : bool) (items : query)
    : result bool :=
  match items with
  | [] => Ok ok
  | (key, value) :: rest =>
      ok' ← check_item flight ok key value;
      check_items flight ok' rest
  end.

(** The loop over [all_valid] for one predicate set. *)
Fixpoint find_matches (q : query) (all_valid : list flight)
    (matches : list flight) : result (list flight) :=
  match all_valid with
  | [] => Ok matches
  | flight :: rest =>
      ok ← check_items flight true q;
      find_matches q rest (if ok : bool then matches ++ [flight] else matches)
  end.

(** The loop over [queries]. *)
Fixpoint answer (all_valid : list flight) (queries : list query)
    (responses : list response) : result (list response) :=
  match queries with
  | [] => Ok responses
  | q :: rest =>
      matches ← find_matches q all_valid [];
      answer all_valid rest
        (responses ++ [{| resp_query := q; resp_matches := matches |}])
  end.

(** The query part of [main]: [responses] as it is written to the
    response file, or the exception that ends the run before that. *)
Definition run_queries (all_valid : list flight) (queries : list query)
    : result (list response) :=
  answer all_valid queries [].

(** [main] with the options [-i] and [-q]: the file is parsed and the
    queries run on its accepted records. *)
Definition parse_and_query (lines : list text) (queries : list query)
    : result (list response) :=
  '(valid, errors) ← parse_csv_file U lines;
  run_queries valid queries.

(** A flight is appended to [matches] when the loop over the items ends
    with [ok] true. *)
Definition satisfies (q : query) (flight : flight) : bool :=
  match check_items flight true q with
  | Ok true => true
  | _ => false
  end.

(** The number a bound of the price predicate is compared as. *)
Definition as_number (value : json) : option number :=
  match value with
  | JInt z => Some (Int z)
  | JFloat f => Some (Float f)
  | JBool b => Some (Int (if b then 1 else 0))
  | _ => None
  end.

(** ** Inputs on which the loop raises nothing *)

(** The values of the keys with a typed comparison have the type the
    comparison needs. *)
Definition item_typed (item : text * json) : bool :=
  let '(key, value) := item in
  if text_eqb key (lit "flight_id") || text_eqb key (lit "origin")
     || text_eqb key (lit "destination") then true
  else if text_eqb key (lit "price") then
    match value with JInt _ | JFloat _ | JBool _ => true | _ => false end
  else if text_eqb key (lit "departure_datetime")
          || text_eqb key (lit "arrival_datetime") then
    match value with JStr s => parses U s | _ => false end
  else true.

(** Both timestamps of a record are in the format. *)
Definition flight_typed (f : flight) : bool :=
  parses U (departure_datetime f) && parses U (arrival_datetime f).
End Run.

End Query.
(* ===================================================================== *)
(** * Sample inputs *)
(* ===================================================================== *)

Module Samples.
Import Text PyFloat DateTime Validator Query.

Definition with_price (fid : string) (price_str : string) : text :=
  lit fid ++ lit ",JFK,LAX,2024-05-01 10:00,2024-05-01 14:00," ++ lit price_str.

Definition record (fid : string) (p : float) : flight :=
  {| flight_id := lit fid; origin := lit "JFK"; destination := lit "LAX";
     departure_datetime := lit "2024-05-01 10:00";
     arrival_datetime := lit "2024-05-01 14:00";
     price := Float p |}.

(** The line of the first scenario of the specification and its record;
    the price is the binary64 value nearest to 199.99. *)
Definition ab12_line : text := with_price "AB12" "199.99".
Definition ab12 : flight := record "AB12" (of_decimal false 19999 (-2)).

(** Lines whose price field is a special value of [float]. *)
Definition inf_line : text := with_price "AB12" "inf".
Definition inf_record : flight := record "AB12" (S754_infinity false).
Definition nan_line : text := with_price "CD34" "nan".
Definition nan_record : flight := record "CD34" S754_nan.


(** A line whose month, day, hour and minute all lack the leading
    zero. *)
Definition bare_line : text :=
  lit "AB12,JFK,LAX,2024-5-1 9:5,2024-5-2 0:7,199.99".


(** A line that breaks the rule on the flight id and the rule on the
    price. *)
Definition two_faults_line : text :=
  lit "A,JFK,LAX,2024-05-01 10:00,2024-05-01 14:00,-5".

(** A file with a header, a blank line, a comment, two records and a short
    line. *)
Definition small_file : list text :=
  [ lit "flight_id,origin,destination,departure_datetime,arrival_datetime,price";
    lit "";
    lit "# morning flights";
    ab12_line;
    two_faults_line;
    lit "AB12,JFK" ].

Definition may_2 : datetime :=
  {| year := 2024; month := 5; day := 2; hour := 0; minute := 0 |}.

End Samples.

(* ===================================================================== *)
(** * The outputs of [parse_csv_file], line by line *)
(* ===================================================================== *)

Module Lines.
Import Text DateTime Py Validator.

(** What the loop body does with a line; an exception would count as
    nothing appended. *)
Definition outcome_of (U : ucd) (line_number : nat) (raw_line : text)
    : outcome :=
  match process_line U line_number raw_line with
  | Ok o => o
  | Raise _ => Skipped
  end.

(** The outcomes of the lines of a file, numbered from [line_number]. *)
Fixpoint line_outcomes (U : ucd) (line_number : nat) (lines : list text)
    : list outcome :=
  match lines with
  | [] => []
  | raw_line :: rest =>
      outcome_of U line_number raw_line
      :: line_outcomes U (S line_number) rest
  end.

(** What an outcome appends to [valid_flights] and to [error_entries]. *)
Definition record_of (o : outcome) : option flight :=
  match o with
  | Accepted f => Some f
  | _ => None
  end.

Definition entry_of (o : outcome) : option text :=
  match o with
  | Notice e | Rejected e => Some e
  | _ => None
  end.

(** The number of commas of a line. *)
Definition commas (s : text) : nat := length (List.filter (N.eqb (ch ",")) s).

(** A text of whitespace only, as [strip] removes it. *)
Definition blank (s : text) : bool := forallb is_space s.

End Lines.

(* ===================================================================== *)
(** * The keys of a predicate set *)
(* ===================================================================== *)

Module Keys.
Import Text Validator Query.

(** The keys that a branch of the loop over [q.items()] names. *)
Definition recognized (key : text) : bool :=
  text_eqb key (lit "flight_id") || text_eqb key (lit "origin")
  || text_eqb key (lit "destination") || text_eqb key (lit "price")
  || text_eqb key (lit "departure_datetime")
  || text_eqb key (lit "arrival_datetime").

(** The items of a predicate set whose key the loop names. *)
Definition recognized_items (q : query) : query :=
  List.filter (fun item => recognized (fst item)) q.

(** The response to a predicate set that matches nothing. *)
Definition no_match (q : query) : response :=
  {| resp_query := q; resp_matches := [] |}.

End Keys.

(* ===================================================================== *)
(** * Values read by [json.load] *)
(* ===================================================================== *)

Module Json.
Import Text PyFloat DateTime Py Validator Query.

(** The dictionary that [parse_csv_file] builds for an accepted line, as
    the loop over the database sees it. *)
Definition of_number (p : number) : json :=
  match p with
  | Int z => JInt z
  | Float f => JFloat f
  end.

Definition of_flight (f : flight) : json :=
  JDict [ (lit "flight_id", JStr (flight_id f));
          (lit "origin", JStr (origin f));
          (lit "destination", JStr (destination f));
          (lit "departure_datetime", JStr (departure_datetime f));
          (lit "arrival_datetime", JStr (arrival_datetime f));
          (lit "price", of_number (price f)) ].

(** The value of a key in a dictionary.  A dictionary holds a key once;
    [json.load] keeps the last value of a key that the text repeats. *)
Fixpoint dict_get (key : text) (items : list (text * json)) : option json :=
  match items with
  | [] => None
  | (k, v) :: rest => if text_eqb k key then Some v else dict_get key rest
  end.

(** [x[key]] for a string [key]: [KeyError] on a dictionary without the
    key, [TypeError] on a list, a string, a number, [None]. *)
Definition subscript (x : json) (key : text) : result json :=
  match x with
  | JDict items =>
      match dict_get key items with
      | Some v => Ok v
      | None => Raise KeyError
      end
  | _ => Raise TypeError
  end.

(** [for x in v]: the elements of a list, the characters of a string, the
    keys of a dictionary; [TypeError] on a value that is not iterable. *)
Definition iterate (v : json) : result (list json) :=
  match v with
  | JList l => Ok l
  | JStr s => Ok (map (fun c => JStr [c]) s)
  | JDict items => Ok (map (fun item => JStr (fst item)) items)
  | _ => Raise TypeError
  end.

(** [json.load] gives one and the same object for every [NaN] of a text.
    Lists and dictionaries compare their elements with [x is y or x == y],
    so two such elements count as equal, while [x == y] on the two is
    false. *)
Definition is_nan_value (x : json) : bool :=
  match x with
  | JFloat f => is_nan f
  | _ => false
  end.

(** [s < s'] on strings: the order of the code points, a prefix first. *)
Fixpoint text_ltb (s s' : text) : bool :=
  match s, s' with
  | _, [] => false
  | [], _ :: _ => true
  | x :: r, y :: r' => (x <? y) || ((x =? y) && text_ltb r r')
  end.

(** [a == b]: numbers, [True] and [False] among them, by their value;
    strings, lists and dictionaries by their content; values of different
    kinds are not equal.  No comparison for equality raises. *)
Fixpoint py_eq (a b : json) {struct a} : bool :=
  match a, b with
  | JNull, JNull => true
  | JStr s, JStr s' => text_eqb s s'
  | JList l, JList l' =>
      (fix list_eq (l l' : list json) {struct l} : bool :=
         match l, l' with
         | [], [] => true
         | x :: r, y :: r' =>
             ((is_nan_value x && is_nan_value y) || py_eq x y) && list_eq r r'
         | _, _ => false
         end) l l'
  | JDict items, JDict items' =>
      (length items =? length items')%nat
      && (fix dict_eq (items : list (text * json)) {struct items} : bool :=
            match items with
            | [] => true
            | (k, v) :: rest =>
                match dict_get k items' with
                | Some v' =>
                    ((is_nan_value v && is_nan_value v') || py_eq v v')
                    && dict_eq rest
                | None => false
                end
            end) items
  | _, _ =>
      match as_number a, as_number b with
      | Some x, Some y => PyFloat.eqb x y
      | _, _ => false
      end
  end.

(** [a != b] *)
Definition py_ne (a b : json) : bool := negb (py_eq a b).

(** [a > b]: numbers by their value, strings by their code points, lists
    by the first pair of elements that are not equal, or by their lengths
    when one is a prefix of the other; [TypeError] for [None], for
    dictionaries and for values of different kinds. *)
Fixpoint py_gt (a b : json) {struct a} : result bool :=
  match a, b with
  | JStr s, JStr s' => Ok (text_ltb s' s)
  | JList l, JList l' =>
      (fix list_gt (l l' : list json) {struct l} : result bool :=
         match l, l' with
         | x :: r, y :: r' =>
             if (is_nan_value x && is_nan_value y) || py_eq x y
             then list_gt r r'
             else py_gt x y
         | _ :: _, [] => Ok true
         | [], _ => Ok false
         end) l l'
  | _, _ =>
      match as_number a, as_number b with
      | Some x, Some y => Ok (PyFloat.gt x y)
      | _, _ => Raise TypeError
      end
  end.

End Json.

(* ===================================================================== *)
(** * The program: [main] *)
(* ===================================================================== *)

Module Main.
Import Text PyFloat DateTime Py Validator Query Json.

(** The options after [parse_args]: [None] for an option that is absent.
    The program tests them for truth, so an empty string counts as
    absent. *)
Record args := {
  opt_i : option text;
  opt_d : option text;
  opt_o : option text;
  opt_j : option text;
  opt_q : option text
}.

Definition given (o : option text) : bool :=
  match o with
  | Some (_ :: _) => true
  | _ => false
  end.

Definition path_of (o : option text) : text :=
  match o with
  | Some p => p
  | None => []
  end.

(** What becomes of a file that the program opens for writing. *)
Inductive write_result :=
  | Written      (* the file takes all that is written to it *)
  | Refused      (* [open] raises, and the file is left as it was *)
  | Cut.         (* the file is opened and emptied, then a write raises *)

(** The files and the clock of a run.  [None] stands for the exception of
    a read that fails: a file that cannot be opened or decoded, a text that
    is no JSON, a directory that cannot be listed.  A file read with
    [json.load] is given by the value that [json.load] returns, which may
    be any value.  [write] says what becomes of each file that the run opens
    for writing.  The standard output takes every line printed. *)
Record world := {
  read_lines : text -> option (list text);
  read_database : text -> option json;     (* the file of [-j] *)
  read_json : text -> option json;         (* the file of [-q] *)
  listdir : text -> option (list text);
  now : text;           (* [datetime.now().strftime("%Y%m%d_%H%M")] *)
  write : text -> write_result
}.

(** An element of [responses]: the predicate set is the value read from
    the query file, a dictionary or not, and a match is an element of the
    database, a record or not. *)
Record reply := {
  reply_query : json;
  reply_matches : list json
}.

(** What the program does: a line printed, a text file written, the two
    files written with [json.dump], given by the value dumped, and a file
    left incomplete by a write that raised. *)
Inductive effect :=
  | Print (line : text)
  | WriteText (path content : text)
  | WriteDatabase (path : text) (db : json)
  | WriteResponses (path : text) (responses : list reply)
  | Incomplete (path : text).

(** The exceptions that leave [main]. *)
Inductive failure :=
  | Uncaught (e : exn)      (* from the query loop *)
  | ReadError               (* from a read of the world *)
  | WriteError.             (* from a write of the world *)

(** A computation of [main]: it extends the effects so far and returns a
    value or stops with an exception. *)
Definition M (A : Type) : Type :=
  list effect -> list effect * (failure + A).

#[export] Instance M_ret : MRet M := fun A a log => (log, inr a).
#[export] Instance M_bind : MBind M := fun A B k m log =>
  match m log with
  | (log', inr a) => k a log'
  | (log', inl e) => (log', inl e)
  end.

Definition emit (e : effect) : M unit := fun log => (log ++ [e], inr tt).
Definition raise {A} (e : failure) : M A := fun log => (log, inl e).

(** A value or an exception of the query loop, inside [main]. *)
Definition lift {A} (r : result A) : M A :=
  match r with
  | Ok a => mret a
  | Raise e => raise (Uncaught e)
  end.

(** [s.endswith(p)] *)
Definition endswith (s p : text) : bool := startswith (rev s) (rev p).

(** [os.path.join(a, b)] of [posixpath] *)
Definition path_join (a b : text) : text :=
  if startswith b (lit "/") then b
  else if text_eqb a [] || endswith a (lit "/") then a ++ b
  else a ++ lit "/" ++ b.

(** ** The query loop on the values of the run *)

Section Loop.
Variable U : ucd.

(** One iteration of the loop over [q.items()], for a [flight] that is any
    element of the database: the new value of [ok]. *)
Definition check_pair (flight : json) (ok : bool) (key : text)
    (value : json) : result bool :=
  if text_eqb key (lit "flight_id") || text_eqb key (lit "origin")
     || text_eqb key (lit "destination") then
    v ← subscript flight key;
    Ok (if py_ne v value then false else ok)
  else if text_eqb key (lit "price") then
    v ← subscript flight (lit "price");
    b ← py_gt v value;
    Ok (if b : bool then false else ok)
  else if text_eqb key (lit "departure_datetime") then
    v ← subscript flight (lit "departure_datetime");
    a ← to_dt U v;
    b ← to_dt U value;
    Ok (if DateTime.ltb a b then false else ok)
  else if text_eqb key (lit "arrival_datetime") then
    v ← subscript flight (lit "arrival_datetime");
    a ← to_dt U v;
    b ← to_dt U value;
    Ok (if DateTime.gtb a b then false else ok)
  else Ok ok.

(** The loop over [q.items()] for one flight; [ok] starts as [True]. *)
Fixpoint check_pairs (flight : json) (ok : bool) (items : list (text * json))
    : result bool :=
  match items with
  | [] => Ok ok
  | (key, value) :: rest =>
      ok' ← check_pair flight ok key value;
      check_pairs flight ok' rest
  end.

(** The loop over the elements of [all_valid] for one element [q] of the
    batch; [q.items()] is reached once per flight, and raises
    [AttributeError] when [q] is no dictionary. *)
Fixpoint scan (q : json) (flights : list json) (matches : list json)
    : result (list json) :=
  match flights with
  | [] => Ok matches
  | flight :: rest =>
      match q with
      | JDict items =>
          ok ← check_pairs flight true items;
          scan q rest (if ok : bool then matches ++ [flight] else matches)
      | _ => Raise AttributeError
      end
  end.

(** [for flight in all_valid] for one [q], from [matches = []]. *)
Definition matches_of (q : json) (all_valid : json) : result (list json) :=
  flights ← iterate all_valid;
  scan q flights [].

(** The loop over the batch. *)
Fixpoint replies (all_valid : json) (batch : list json)
    (responses : list reply) : result (list reply) :=
  match batch with
  | [] => Ok responses
  | q :: rest =>
      matches ← matches_of q all_valid;
      replies all_valid rest
        (responses ++ [{| reply_query := q; reply_matches := matches |}])
  end.

(** [for q in queries], after a single dictionary has been wrapped into a
    list. *)
Definition batch_of (queries : json) : result (list json) :=
  match queries with
  | JDict _ => Ok [queries]
  | _ => iterate queries
  end.

(** [responses] for the value read from the query file. *)
Definition answer_queries (all_valid : json) (queries : json)
    : result (list reply) :=
  batch ← batch_of queries;
  replies all_valid batch [].
End Loop.

(** ** The parts of [main] *)

Section Program.
Variable U : ucd.
Variable w : world.

(** [with open(path, "w") as f] and the writes to [f], the whole of which
    is the effect [e]. *)
Definition write_file (path : text) (e : effect) : M unit :=
  match write w path with
  | Written => emit e
  | Refused => raise WriteError
  | Cut => _ ← emit (Incomplete path); raise WriteError
  end.

(** The part for [-j].  The result [None] is the [return] of the [except]
    branch; without [-j] the database is the empty list that [main] starts
    with. *)
Definition load_database (a : args) : M (option json) :=
  if given (opt_j a) then
    match read_database w (path_of (opt_j a)) with
    | Some db =>
        _ ← emit (Print (lit "Loaded existing database from "
                         ++ path_of (opt_j a)));
        mret (Some db)
    | None =>
        _ ← emit (Print (lit "Error: Could not load JSON database."));
        mret None
    end
  else mret (Some (JList [])).

(** [parse_csv_file(path)] on the file at [path]. *)
Definition parse_source (path : text) : M (list flight * list text) :=
  match read_lines w path with
  | None => raise ReadError
  | Some lines =>
      match parse_csv_file U lines with
      | Ok r => mret r
      | Raise e => raise (Uncaught e)
      end
  end.

(** [all_valid.extend(valid)]: a method of lists. *)
Definition extend (all_valid : json) (valid : list flight) : M json :=
  match all_valid with
  | JList l => mret (JList (l ++ map of_flight valid))
  | _ => raise (Uncaught AttributeError)
  end.

(** The two lines that follow a call of [parse_csv_file]; the state is
    [(all_valid, all_errors)]. *)
Definition extend_both (st : json * list text)
    (r : list flight * list text) : M (json * list text) :=
  all_valid ← extend st.1 r.1;
  mret (all_valid, st.2 ++ r.2).

(** The part for [-i]. *)
Definition parse_single (a : args) (st : json * list text)
    : M (json * list text) :=
  if given (opt_i a) && negb (given (opt_j a)) then
    r ← parse_source (path_of (opt_i a));
    extend_both st r
  else mret st.

(** The loop over [os.listdir(args.d)]. *)
Fixpoint parse_files (d : text) (filenames : list text)
    (st : json * list text) : M (json * list text) :=
  match filenames with
  | [] => mret st
  | filename :: rest =>
      if endswith filename (lit ".csv") then
        r ← parse_source (path_join d filename);
        st' ← extend_both st r;
        parse_files d rest st'
      else parse_files d rest st
  end.

(** The part for [-d]. *)
Definition parse_folder (a : args) (st : json * list text)
    : M (json * list text) :=
  if given (opt_d a) && negb (given (opt_j a)) then
    match listdir w (path_of (opt_d a)) with
    | None => raise ReadError
    | Some filenames => parse_files (path_of (opt_d a)) filenames st
    end
  else mret st.

Definition response_file : text :=
  lit "response_123456_Nisa_Yakut_" ++ now w ++ lit ".json".

(** The part for [-q]. *)
Definition run_query_file (a : args) (all_valid : json) : M unit :=
  if given (opt_q a) then
    match read_json w (path_of (opt_q a)) with
    | None => raise ReadError
    | Some queries =>
        responses ← lift (answer_queries U all_valid queries);
        _ ← write_file response_file
              (WriteResponses response_file responses);
        emit (Print (lit "Query results saved to: " ++ response_file))
    end
  else mret tt.

Definition output_path (a : args) : text :=
  if given (opt_o a) then path_of (opt_o a) else lit "db.json".

(** The text written to [errors.txt]: every entry and a line feed. *)
Definition errors_text (all_errors : list text) : text :=
  concat (map (fun e => e ++ [10]) all_errors).

(** The part that writes the outputs of a parse. *)
Definition write_outputs (a : args) (all_valid : json)
    (all_errors : list text) : M unit :=
  if negb (given (opt_j a)) then
    _ ← write_file (lit "errors.txt")
          (WriteText (lit "errors.txt") (errors_text all_errors));
    _ ← write_file (output_path a) (WriteDatabase (output_path a) all_valid);
    _ ← emit (Print (lit "Parsing completed."));
    _ ← emit (Print (lit "Valid flights saved to: " ++ output_path a));
    emit (Print (lit "Errors saved to: errors.txt"))
  else mret tt.

(** [main()], given the options. *)
Definition main (a : args) : M unit :=
  loaded ← load_database a;
  match loaded with
  | None => mret tt
  | Some all_valid =>
      st ← parse_single a (all_valid, []);
      st ← parse_folder a st;
      _ ← run_query_file a st.1;
      write_outputs a st.1 st.2
  end.

(** The run of the program: its effects in order, and how it ends. *)
Definition run (a : args) : list effect * (failure + unit) := main a [].
End Program.

(** ** Sources of a parse *)

(** The files that a run without [-j] parses, in the order in which it
    parses them: the file of [-i], then the files of the directory of [-d]
    whose name ends in [.csv], in the order of the listing. *)
Definition csv_names (filenames : list text) : list text :=
  List.filter (fun filename => endswith filename (lit ".csv")) filenames.

Definition sources (w : world) (a : args) : option (list text) :=
  let single := if given (opt_i a) then [path_of (opt_i a)] else [] in
  if given (opt_d a) then
    match listdir w (path_of (opt_d a)) with
    | Some filenames =>
        Some (single ++ map (path_join (path_of (opt_d a)))
                            (csv_names filenames))
    | None => None
    end
  else Some single.

(** What [parse_csv_file] returns for the file at [path], when the file can
    be read. *)
Definition parsed (U : ucd) (w : world) (path : text)
    : option (list flight * list text) :=
  match read_lines w path with
  | Some lines =>
      match parse_csv_file U lines with
      | Ok r => Some r
      | Raise _ => None
      end
  | None => None
  end.

(** The database of a run that parsed the records [valid]. *)
Definition database (valid : list flight) : json :=
  JList (map of_flight valid).

(** A response of the loop over the records of the validator, as an
    element of [responses]. *)
Definition to_reply (r : response) : reply :=
  {| reply_query := JDict (resp_query r);
     reply_matches := map of_flight (resp_matches r) |}.



(** The effects of the part for [-q] when the batch is answered and the
    response file takes what is written. *)
Definition query_outputs (w : world) (responses : list reply)
    : list effect :=
  [ WriteResponses (response_file w) responses;
    Print (lit "Query results saved to: " ++ response_file w) ].

(** An output of a parse: [errors.txt] or the database file. *)
Definition is_parse_output (e : effect) : bool :=
  match e with
  | WriteText _ _ | WriteDatabase _ _ => true
  | _ => false
  end.

(** The file that an effect touches. *)
Definition file_of (e : effect) : option text :=
  match e with
  | Print _ => None
  | WriteText path _ | WriteDatabase path _ | WriteResponses path _
  | Incomplete path => Some path
  end.

(** The options [-j] and [-q] alone. *)
Definition only_jq (a : args) : args :=
  {| opt_i := None; opt_d := None; opt_o := None;
     opt_j := opt_j a; opt_q := opt_q a |}.



(** A world for the examples: the file [flights.csv], the directory [data]
    with two files, two query files and a database file; every file can be
    written except those of the directory [locked]. *)
Definition sample_world : world :=
  {| read_lines := fun path =>
       if text_eqb path (lit "flights.csv") then
         Some [lit "AB12,JFK,LAX,2024-05-01 10:00,2024-05-01 14:00,199.99";
               lit "AB12,JFK"]
       else if text_eqb path (lit "data/more.csv") then
         Some [lit "CD34,JFK,LAX,2024-05-01 10:00,2024-05-01 14:00,nan"]
       else None;
     read_database := fun path =>
       if text_eqb path (lit "db.json") then Some (JList [])
       else if text_eqb path (lit "old.json") then
         Some (JList [JDict [(lit "flight_id", JStr (lit "AB12"));
                             (lit "price", JStr (lit "199.99"))]])
       else None;
     read_json := fun path =>
       if text_eqb path (lit "q.json") then
         Some (JDict [(lit "price", JInt 200)])
       else if text_eqb path (lit "bad.json") then
         Some (JDict [(lit "departure_datetime", JStr (lit "tomorrow"))])
       else None;
     listdir := fun path =>
       if text_eqb path (lit "data") then
         Some [lit "notes.txt"; lit "more.csv"]
       else None;
     now := lit "20240501_1000";
     write := fun path =>
       if startswith path (lit "locked/") then Refused else Written |}.


End Main.

(* ===================================================================== *)
(** * Facts about the library layers *)
(* ===================================================================== *)

Import Text PyFloat DateTime Py Validator Query.

Section TextFacts.
Variable U : ucd.

(** What the loop of [isupper] decides: no lowercase and no titlecase
    character, and an uppercase one seen before or in the rest. *)
Lemma isupper_loop_spec (cased : bool) (s : text) :
  isupper_loop U cased s = true <->
  Forall (fun c => is_lower U c = false /\ is_title U c = false) s
  /\ (cased = true \/ Exists (fun c => is_upper U c = true) s).
Proof.
  revert cased. induction s as [|c s IH]; intros cased; simpl.
  - split.
    + intros ->. split; [constructor | now left].
    + intros [_ [H | H]]; [exact H | inversion H].
  - destruct (is_lower U c) eqn:Hl; simpl.
    { split; [discriminate |].
      intros [H _]. inversion H as [|? ? [Hc _] ?]; subst. congruence. }
    destruct (is_title U c) eqn:Ht; simpl.
    { split; [discriminate |].
      intros [H _]. inversion H as [|? ? [_ Hc] ?]; subst. congruence. }
    rewrite IH. split.
    + intros [Hall Hex]. split; [constructor; auto |].
      destruct Hex as [Hex | Hex]; [| right; now constructor 2].
      apply orb_true_iff in Hex as [-> | Hup]; [now left |].
      right. now constructor 1.
    + intros [Hall Hex]. inversion Hall; subst. split; [assumption |].
      destruct Hex as [-> | Hex]; [now left |].
      inversion Hex; subst.
      * left. apply orb_true_iff. now right.
      * now right.
Qed.

(** On a string of three characters [isupper] is its loop. *)
Lemma isupper_three (s : text) :
  len s = 3%Z ->
  (isupper U s = true <->
   Forall (fun c => is_lower U c = false /\ is_title U c = false) s
   /\ Exists (fun c => is_upper U c = true) s).
Proof.
  intros Hlen.
  destruct s as [|a [|b [|c [|e s]]]]; unfold len in Hlen; simpl in Hlen;
    try lia.
  change (isupper U [a; b; c]) with (isupper_loop U false [a; b; c]).
  rewrite isupper_loop_spec. split.
  - intros [H [Hc | Hex]]; [discriminate | auto].
  - intros [H Hex]; auto.
Qed.

Lemma text_eqb_eq (a b : text) : text_eqb a b = true <-> a = b.
Proof. unfold text_eqb. apply bool_decide_eq_true. Qed.

Lemma text_eqb_neq (a b : text) : text_eqb a b = false <-> a <> b.
Proof. unfold text_eqb. apply bool_decide_eq_false. Qed.
End TextFacts.

Section NumberFacts.

(** A float that is not a NaN has a value. *)
Lemma float_value_some (p : float) :
  is_nan p = false -> exists x, float_value p = Some x.
Proof. destruct p; simpl; intros H; try discriminate; eauto. Qed.

(** When [p <= 0] is false, [p] is a NaN or [p > 0] is true. *)
Lemma not_le_zero (p : float) :
  PyFloat.le (Float p) (Int 0) = false ->
  is_nan p = false ->
  PyFloat.gt (Float p) (Int 0) = true.
Proof.
  intros Hle Hnan. destruct (float_value_some p Hnan) as [x Hx].
  unfold PyFloat.gt, PyFloat.lt, PyFloat.le in *. simpl in *.
  rewrite Hx in *. unfold ereal_leb in Hle.
  now apply negb_false_iff in Hle.
Qed.

Lemma ereal_ltb_le_trans (a b c : ereal) :
  ereal_ltb a b = true -> ereal_leb b c = true -> ereal_ltb a c = true.
Proof.
  unfold ereal_leb. intros Hab Hbc. apply negb_true_iff in Hbc.
  destruct a as [|p|], b as [|q|], c as [|r|]; cbn -[Qcompare] in *;
    try discriminate; try reflexivity.
  destruct (p ?= q)%Q eqn:Hpq; try discriminate.
  destruct (r ?= q)%Q eqn:Hrq; try discriminate.
  - apply Qeq_alt in Hrq. apply Qlt_alt in Hpq.
    assert (H : (p < r)%Q) by (rewrite Hrq; exact Hpq).
    now rewrite (proj1 (Qlt_alt p r) H).
  - apply Qgt_alt in Hrq. apply Qlt_alt in Hpq.
    assert (H : (p < r)%Q) by (eapply Qlt_trans; eauto).
    now rewrite (proj1 (Qlt_alt p r) H).
Qed.

(** Lowering the bound of a price predicate keeps no record that the
    higher bound drops: a record kept by [v'] is kept by every [v >= v']. *)
Lemma price_bound_monotone (p v' v : number) :
  PyFloat.le v' v = true ->
  PyFloat.gt p v' = false ->
  PyFloat.gt p v = false.
Proof.
  unfold PyFloat.le, PyFloat.gt, PyFloat.lt.
  destruct (value v') as [y'|]; [| discriminate].
  destruct (value v) as [y|]; [| discriminate].
  destruct (value p) as [x|]; [| reflexivity].
  intros Hle Hgt. destruct (ereal_ltb y x) eqn:Hyx; [| reflexivity].
  assert (H : ereal_ltb y' x = true).
  { destruct (ereal_ltb y' x) eqn:E; [reflexivity |].
    assert (Hxy' : ereal_leb x y' = true) by (unfold ereal_leb; now rewrite E).
    pose proof (ereal_ltb_le_trans _ _ _ Hyx Hxy') as Hyy'.
    unfold ereal_leb in Hle. rewrite Hyy' in Hle. discriminate. }
  congruence.
Qed.

(** A record kept by the price predicate has a price at most the bound,
    unless its price is a NaN. *)
Lemma price_kept_le (p v : number) :
  PyFloat.gt p v = false ->
  (exists x, value p = Some x) -> (exists y, value v = Some y) ->
  PyFloat.le p v = true.
Proof.
  unfold PyFloat.le, PyFloat.gt, PyFloat.lt, ereal_leb.
  intros H [x Hx] [y Hy]. rewrite Hx, Hy in *. now rewrite H.
Qed.
End NumberFacts.

(* ===================================================================== *)
(** * The validator *)
(* ===================================================================== *)

Section ValidatorFacts.
Variable U : ucd.

Lemma check_airport_ok (code field_name : text) :
  check_airport U code field_name =
  if airport_ok U code then None
  else Some (lit "invalid " ++ field_name ++ lit " code").
Proof.
  unfold check_airport, airport_ok.
  destruct (len code =? 3)%Z; simpl; [| reflexivity].
  destruct (isupper U code); simpl; [| reflexivity].
  destruct (text_eqb code (lit "XXX")); reflexivity.
Qed.

Lemma append_if_airport (code field_name : text) (reasons : list text) :
  append_if (check_airport U code field_name) reasons =
  reasons ++ (if airport_ok U code then []
              else [lit "invalid " ++ field_name ++ lit " code"]).
Proof.
  rewrite check_airport_ok. destruct (airport_ok U code); simpl.
  - now rewrite app_nil_r.
  - reflexivity.
Qed.

(** The reasons the loop collects are the reasons of the failing checks,
    each check looked at on its own, in the order of the checks. *)
Lemma validate_applicable (fid o d dep arr pr : text) :
  validate U fid o d dep arr pr = applicable_reasons U fid o d dep arr pr.
Proof.
  unfold validate, applicable_reasons, checks.
  rewrite !append_if_airport.
  unfold parses, arrival_not_later, price_not_positive, price_unreadable.
  fold (flight_id_ok U fid).
  destruct (flight_id_ok U fid), (airport_ok U o), (airport_ok U d),
    (strptime U dep) as [dep_dt|], (strptime U arr) as [arr_dt|];
    try destruct (DateTime.leb arr_dt dep_dt);
    destruct (float_of_text U pr) as [p|];
    try destruct (PyFloat.le (Float p) (Int 0));
    reflexivity.
Qed.
End ValidatorFacts.

Section LineFacts.
Variable U : ucd.

Lemma comment_not_blank (raw : text) :
  is_comment raw = true -> is_blank raw = false.
Proof.
  unfold is_comment, is_blank. destruct (strip raw); [now vm_compute |].
  intros _. now apply text_eqb_neq.
Qed.

Lemma header_not_blank (raw : text) :
  is_header raw = true -> is_blank raw = false.
Proof.
  unfold is_header, is_blank. destruct (strip raw); [now vm_compute |].
  intros _. now apply text_eqb_neq.
Qed.

Lemma header_not_comment (raw : text) :
  is_header raw = true -> is_comment raw = false.
Proof.
  unfold is_header, is_comment.
  destruct (strip raw) as [|c s]; [now vm_compute |].
  change (lit "flight_id") with (102 :: lit "light_id").
  change (lit "#") with [35]. cbn [startswith].
  destruct (N.eqb_spec 102 c) as [<- | Hne]; [reflexivity | discriminate].
Qed.

(** Every line is of exactly one of the four kinds. *)
Lemma line_kinds (raw : text) :
  ((if is_blank raw then 1 else 0) + (if is_comment raw then 1 else 0)
   + (if is_header raw then 1 else 0) + (if is_data raw then 1 else 0) = 1)%nat.
Proof.
  unfold is_data.
  destruct (is_header raw) eqn:Hh.
  - rewrite (header_not_comment raw Hh), (header_not_blank raw Hh). reflexivity.
  - destruct (is_comment raw) eqn:Hc.
    + rewrite (comment_not_blank raw Hc). reflexivity.
    + destruct (is_blank raw); reflexivity.
Qed.

Lemma process_line_blank (n : nat) (raw : text) :
  is_blank raw = true -> process_line U n raw = Ok Skipped.
Proof. unfold is_blank, process_line. now intros ->. Qed.

Lemma process_line_comment (n : nat) (raw : text) :
  is_comment raw = true ->
  process_line U n raw =
  Ok (Notice (entry n (strip raw)
                (lit "comment line, ignored for data parsing"))).
Proof.
  intros H. pose proof (comment_not_blank raw H) as Hb.
  unfold is_blank, is_comment, process_line in *. now rewrite Hb, H.
Qed.

Lemma process_line_header (n : nat) (raw : text) :
  is_header raw = true -> process_line U n raw = Ok Skipped.
Proof.
  intros H. pose proof (header_not_blank raw H) as Hb.
  pose proof (header_not_comment raw H) as Hc.
  unfold is_blank, is_comment, is_header, process_line in *.
  now rewrite Hb, Hc, H.
Qed.

Lemma is_data_guards (raw : text) :
  is_data raw = true ->
  is_blank raw = false /\ is_comment raw = false /\ is_header raw = false.
Proof.
  unfold is_data. intros H.
  apply andb_true_iff in H as [H H3]. apply andb_true_iff in H as [H1 H2].
  now rewrite !negb_true_iff in *.
Qed.

(** A line of six fields: the outcome is read off the reasons. *)
Lemma process_line_six (n : nat) (raw fid o d dep arr pr : text) :
  is_data raw = true ->
  split (ch ",") (strip raw) = [fid; o; d; dep; arr; pr] ->
  process_line U n raw =
  match applicable_reasons U fid o d dep arr pr with
  | [] =>
      p ← or_value_error (float_of_text U pr);
      Ok (Accepted {| flight_id := fid; origin := o; destination := d;
                      departure_datetime := dep; arrival_datetime := arr;
                      price := Float p |})
  | reasons => Ok (Rejected (entry n (strip raw) (join (lit ", ") reasons)))
  end.
Proof.
  intros Hd Hs. apply is_data_guards in Hd as (Hb & Hc & Hh).
  unfold is_blank, is_comment, is_header, process_line in *.
  rewrite Hb, Hc, Hh, Hs, validate_applicable. reflexivity.
Qed.

(** A line with another number of fields. *)
Lemma process_line_other (n : nat) (raw : text) :
  is_data raw = true ->
  length (split (ch ",") (strip raw)) <> 6%nat ->
  process_line U n raw =
  Ok (Rejected (entry n (strip raw) (lit "missing required fields"))).
Proof.
  intros Hd Hs. apply is_data_guards in Hd as (Hb & Hc & Hh).
  unfold is_blank, is_comment, is_header, process_line in *.
  rewrite Hb, Hc, Hh.
  destruct (split (ch ",") (strip raw)) as [|a [|b [|c [|d [|e [|f [|g l]]]]]]];
    try reflexivity.
  now contradiction Hs.
Qed.

(** No reason means that every check passes. *)
Lemma applicable_nil (fid o d dep arr pr : text) :
  applicable_reasons U fid o d dep arr pr = [] <->
  flight_id_ok U fid = true /\ airport_ok U o = true /\ airport_ok U d = true
  /\ parses U dep = true /\ parses U arr = true
  /\ arrival_not_later U dep arr = false
  /\ price_not_positive U pr = false /\ price_unreadable U pr = false.
Proof.
  unfold applicable_reasons, checks.
  destruct (flight_id_ok U fid), (airport_ok U o), (airport_ok U d),
    (parses U dep), (parses U arr), (arrival_not_later U dep arr),
    (price_not_positive U pr), (price_unreadable U pr); simpl;
    split; intros H; try discriminate; try reflexivity; try tauto;
    destruct H as (? & ? & ? & ? & ? & ? & ? & ?); discriminate.
Qed.

(** What an accepted line looks like. *)
Lemma accepted_inv (n : nat) (raw : text) (fl : flight) :
  process_line U n raw = Ok (Accepted fl) ->
  exists pr p,
    is_data raw = true
    /\ split (ch ",") (strip raw) =
       [flight_id fl; origin fl; destination fl;
        departure_datetime fl; arrival_datetime fl; pr]
    /\ applicable_reasons U (flight_id fl) (origin fl) (destination fl)
         (departure_datetime fl) (arrival_datetime fl) pr = []
    /\ float_of_text U pr = Some p
    /\ price fl = Float p.
Proof.
  intros H.
  destruct (is_blank raw) eqn:Hb.
  { rewrite process_line_blank in H by assumption. discriminate. }
  destruct (is_comment raw) eqn:Hc.
  { rewrite process_line_comment in H by assumption. discriminate. }
  destruct (is_header raw) eqn:Hh.
  { rewrite process_line_header in H by assumption. discriminate. }
  assert (Hd : is_data raw = true) by (unfold is_data; now rewrite Hb, Hc, Hh).
  destruct (decide (length (split (ch ",") (strip raw)) = 6%nat)) as [Hl | Hl].
  2:{ rewrite process_line_other in H by assumption. discriminate. }
  destruct (split (ch ",") (strip raw))
    as [|fid [|o [|d [|dep [|arr [|pr [|g l]]]]]]] eqn:Hs;
    try discriminate.
  rewrite (process_line_six n raw fid o d dep arr pr Hd Hs) in H.
  destruct (applicable_reasons U fid o d dep arr pr) eqn:Hr; [| discriminate].
  destruct (float_of_text U pr) as [p|] eqn:Hp; simpl in H; [| discriminate].
  injection H as <-. simpl. exists pr, p. auto.
Qed.

(** The loop body raises nothing: a line without a reason has a price that
    [float] reads, so the second call of [float] succeeds as the first. *)
Lemma process_line_total (n : nat) (raw : text) :
  exists o, process_line U n raw = Ok o.
Proof.
  destruct (is_blank raw) eqn:Hb.
  { rewrite process_line_blank by assumption. eauto. }
  destruct (is_comment raw) eqn:Hc.
  { rewrite process_line_comment by assumption. eauto. }
  destruct (is_header raw) eqn:Hh.
  { rewrite process_line_header by assumption. eauto. }
  assert (Hd : is_data raw = true) by (unfold is_data; now rewrite Hb, Hc, Hh).
  destruct (decide (length (split (ch ",") (strip raw)) = 6%nat)) as [Hl | Hl].
  2:{ rewrite process_line_other by assumption. eauto. }
  destruct (split (ch ",") (strip raw))
    as [|fid [|o [|d [|dep [|arr [|pr [|g l]]]]]]] eqn:Hs;
    try discriminate.
  rewrite (process_line_six n raw fid o d dep arr pr Hd Hs).
  destruct (applicable_reasons U fid o d dep arr pr) eqn:Hr; [| eauto].
  apply applicable_nil in Hr as (_ & _ & _ & _ & _ & _ & _ & Hp).
  unfold price_unreadable in Hp.
  destruct (float_of_text U pr); [simpl; eauto | discriminate].
Qed.

(** A data line is accepted or rejected, and no other line is. *)
Lemma data_line_outcome (n : nat) (raw : text) :
  (if is_data raw then 1 else 0)%nat =
  ((if accepted_at U n raw then 1 else 0)
   + (if rejected_at U n raw then 1 else 0))%nat.
Proof.
  unfold accepted_at, rejected_at.
  destruct (is_blank raw) eqn:Hb.
  { rewrite process_line_blank by assumption.
    unfold is_data. now rewrite Hb. }
  destruct (is_comment raw) eqn:Hc.
  { rewrite process_line_comment by assumption.
    unfold is_data. now rewrite Hb, Hc. }
  destruct (is_header raw) eqn:Hh.
  { rewrite process_line_header by assumption.
    unfold is_data. now rewrite Hb, Hc, Hh. }
  assert (Hd : is_data raw = true) by (unfold is_data; now rewrite Hb, Hc, Hh).
  rewrite Hd.
  destruct (decide (length (split (ch ",") (strip raw)) = 6%nat)) as [Hl | Hl].
  2:{ rewrite process_line_other by assumption. reflexivity. }
  destruct (split (ch ",") (strip raw))
    as [|fid [|o [|d [|dep [|arr [|pr [|g l]]]]]]] eqn:Hs;
    try discriminate.
  rewrite (process_line_six n raw fid o d dep arr pr Hd Hs).
  destruct (applicable_reasons U fid o d dep arr pr) eqn:Hr; [| reflexivity].
  apply applicable_nil in Hr as (_ & _ & _ & _ & _ & _ & _ & Hp).
  unfold price_unreadable in Hp.
  destruct (float_of_text U pr); [reflexivity | discriminate].
Qed.
End LineFacts.

Section AcceptedFacts.
Variable U : ucd.

Lemma airport_ok_check (code field_name : text) :
  check_airport U code field_name = None <-> airport_ok U code = true.
Proof.
  rewrite check_airport_ok. destruct (airport_ok U code); split;
    intros H; try reflexivity; discriminate.
Qed.

(** The checks of a line without a reason establish the invariants of the
    record built from it. *)
Lemma checks_establish_invariants (fid o d dep arr pr : text) (p : float) :
  applicable_reasons U fid o d dep arr pr = [] ->
  float_of_text U pr = Some p ->
  record_invariants U
    {| flight_id := fid; origin := o; destination := d;
       departure_datetime := dep; arrival_datetime := arr;
       price := Float p |}.
Proof.
  intros Hr Hp.
  apply applicable_nil in Hr as (Hf & Ho & Hd & Hdep & Harr & Hord & Hpos & _).
  unfold record_invariants; simpl. repeat split.
  - exact Hf.
  - now apply airport_ok_check.
  - now apply airport_ok_check.
  - unfold parses, arrival_not_later in *.
    destruct (strptime U dep) as [dep_dt|]; [| discriminate].
    destruct (strptime U arr) as [arr_dt|]; [| discriminate].
    exists dep_dt, arr_dt. repeat split.
    unfold DateTime.leb in Hord. unfold DateTime.gtb.
    destruct (DateTime.compare arr_dt dep_dt); congruence.
  - exists p. unfold price_not_positive in Hpos. rewrite Hp in Hpos.
    repeat split; [assumption |].
    now apply not_le_zero.
Qed.

(** The records of [valid_flights] come from accepted lines. *)
Lemma parse_lines_valid (lines : list text) :
  forall n valid errors valid' errors',
    parse_lines U n lines valid errors = Ok (valid', errors') ->
    forall fl, In fl valid' ->
      In fl valid
      \/ exists k raw, In raw lines /\ process_line U k raw = Ok (Accepted fl).
Proof.
  induction lines as [|raw rest IH]; intros n valid errors valid' errors' H fl Hin.
  - simpl in H. injection H as <- <-. now left.
  - simpl in H. destruct (process_line U n raw) as [o|e] eqn:Ho;
      simpl in H; [| discriminate].
    destruct o as [| e | e | f].
    + destruct (IH _ _ _ _ _ H fl Hin) as [? | (k & r & ? & ?)];
        [now left | right; exists k, r; split; [now right | assumption]].
    + destruct (IH _ _ _ _ _ H fl Hin) as [? | (k & r & ? & ?)];
        [now left | right; exists k, r; split; [now right | assumption]].
    + destruct (IH _ _ _ _ _ H fl Hin) as [? | (k & r & ? & ?)];
        [now left | right; exists k, r; split; [now right | assumption]].
    + destruct (IH _ _ _ _ _ H fl Hin) as [Hv | (k & r & ? & ?)].
      * apply in_app_or in Hv as [Hv | [<- | []]]; [now left |].
        right. exists n, raw. split; [now left | assumption].
      * right; exists k, r; split; [now right | assumption].
Qed.

(** Every record that [parse_csv_file] returns has the invariants. *)
Lemma valid_flights_invariants (lines : list text) (valid : list flight)
    (errors : list text) :
  parse_csv_file U lines = Ok (valid, errors) ->
  Forall (record_invariants U) valid.
Proof.
  intros H. apply Forall_forall. intros fl Hin.
  apply list_elem_of_In in Hin.
  destruct (parse_lines_valid lines _ _ _ _ _ H fl Hin) as [[] | (k & r & _ & Ha)].
  apply accepted_inv in Ha as (pr & p & _ & _ & Hr & Hp & Hprice).
  destruct fl; simpl in *; subst.
  eapply checks_establish_invariants; eauto.
Qed.

(** A line of six fields whose checks all pass is accepted. *)
Lemma passing_line_accepted (n : nat) (raw fid o d dep arr pr : text)
    (dep_dt arr_dt : datetime) (p : float) :
  is_data raw = true ->
  split (ch ",") (strip raw) = [fid; o; d; dep; arr; pr] ->
  flight_id_ok U fid = true ->
  check_airport U o (lit "origin") = None ->
  check_airport U d (lit "destination") = None ->
  strptime U dep = Some dep_dt ->
  strptime U arr = Some arr_dt ->
  DateTime.gtb arr_dt dep_dt = true ->
  float_of_text U pr = Some p ->
  PyFloat.le (Float p) (Int 0) = false ->
  process_line U n raw =
  Ok (Accepted {| flight_id := fid; origin := o; destination := d;
                  departure_datetime := dep; arrival_datetime := arr;
                  price := Float p |}).
Proof.
  intros Hd Hs Hf Ho Hde Hdep Harr Hgt Hp Hle.
  rewrite (process_line_six U n raw fid o d dep arr pr Hd Hs).
  assert (Hr : applicable_reasons U fid o d dep arr pr = []).
  { apply applicable_nil. apply airport_ok_check in Ho, Hde.
    unfold parses, arrival_not_later, price_not_positive, price_unreadable.
    rewrite Hdep, Harr, Hp. repeat split; try assumption.
    unfold DateTime.gtb in Hgt. unfold DateTime.leb.
    destruct (DateTime.compare arr_dt dep_dt); congruence. }
  rewrite Hr, Hp. reflexivity.
Qed.
End AcceptedFacts.

(* ===================================================================== *)
(** * Properties of the validator *)
(* ===================================================================== *)

Import Samples.

(** C1, as amended.  Every line that the validator accepts gives a record
    whose flight id passes the format check, whose two airport codes pass
    [check_airport], whose two timestamps are in the format, whose arrival
    is strictly later than its departure, and whose price is the value that
    [float] read from the sixth field of the line, for which [price <= 0] is
    false: unless it is a NaN, the price is greater than zero.  It need not
    be finite. *)
Theorem accepted_record_invariants (U : ucd) (n : nat) (raw : text)
    (fl : flight) :
  process_line U n raw = Ok (Accepted fl) ->
  record_invariants U fl
  /\ exists fid o d dep arr price_str p,
       split (ch ",") (strip raw) = [fid; o; d; dep; arr; price_str]
       /\ float_of_text U price_str = Some p
       /\ price fl = Float p
       /\ PyFloat.le (Float p) (Int 0) = false
       /\ (is_nan p = false -> PyFloat.gt (Float p) (Int 0) = true).
Proof.
  intros H. apply accepted_inv in H as (pr & p & _ & Hs & Hr & Hp & Hprice).
  destruct fl as [fid o d dep arr price]; simpl in *. subst price.
  pose proof (checks_establish_invariants U fid o d dep arr pr p Hr Hp) as Hinv.
  split; [exact Hinv |].
  exists fid, o, d, dep, arr, pr, p.
  destruct Hinv as (_ & _ & _ & _ & (p' & [= <-] & Hle & Hgt)).
  auto.
Qed.

Lemma accepted_record_invariants_witness :
  process_line ascii_only 1 ab12_line = Ok (Accepted ab12)
  /\ record_invariants ascii_only ab12
  /\ exists fid o d dep arr price_str p,
       split (ch ",") (strip ab12_line) = [fid; o; d; dep; arr; price_str]
       /\ float_of_text ascii_only price_str = Some p
       /\ price ab12 = Float p
       /\ PyFloat.le (Float p) (Int 0) = false
       /\ (is_nan p = false -> PyFloat.gt (Float p) (Int 0) = true).
Proof.
  assert (H : process_line ascii_only 1 ab12_line = Ok (Accepted ab12))
    by (vm_compute; reflexivity).
  split; [exact H |].
  exact (accepted_record_invariants ascii_only 1 ab12_line ab12 H).
Defined.

(** C1, as stated, fails: a line whose price field is [inf] is accepted,
    and the price of its record is not finite. *)
Lemma accepted_price_not_finite :
  (forall U, process_line U 1 inf_line = Ok (Accepted inf_record))
  /\ price inf_record = Float (S754_infinity false)
  /\ is_finite (S754_infinity false) = false.
Proof.
  split; [| split; reflexivity].
  intros U. vm_compute. reflexivity.
Qed.

(** A line whose price field is [nan] is accepted as well. *)
Lemma accepted_price_nan :
  forall U, process_line U 1 nan_line = Ok (Accepted nan_record).
Proof. intros U. vm_compute. reflexivity. Qed.



Section ReasonFacts.
Variable U : ucd.

(** Keeping the failing checks keeps their order. *)
Lemma failing_sublist (l : list (bool * text)) :
  (List.filter fst l).*2 `sublist_of` l.*2.
Proof.
  induction l as [|[[] r] l IH]; simpl.
  - constructor.
  - now constructor.
  - now constructor.
Qed.

Lemma flag_unique (l : list (bool * text)) (b b' : bool) (r : text) :
  NoDup l.*2 -> In (b, r) l -> In (b', r) l -> b = b'.
Proof.
  induction l as [|[c t] l IH]; simpl; intros Hnd H1 H2; [contradiction |].
  apply NoDup_cons in Hnd as [Hnotin Hnd].
  destruct H1 as [H1 | H1], H2 as [H2 | H2].
  - congruence.
  - injection H1 as -> ->. exfalso. apply Hnotin.
    apply list_elem_of_In. change r with (snd (b', r)). now apply in_map.
  - injection H2 as -> ->. exfalso. apply Hnotin.
    apply list_elem_of_In. change r with (snd (b, r)). now apply in_map.
  - now apply IH.
Qed.

(** With reasons that differ from check to check, a reason is collected
    exactly when its check fails. *)
Lemma failing_reason (l : list (bool * text)) (b : bool) (r : text) :
  NoDup l.*2 -> In (b, r) l ->
  (In r (List.filter fst l).*2 <-> b = true).
Proof.
  intros Hnd Hin. split.
  - intros H. apply in_map_iff in H as ([b' r'] & Hr & H). simpl in Hr. subst r'.
    apply filter_In in H as [H Hb]. simpl in Hb. subst b'.
    now apply (flag_unique l b true r).
  - intros ->. change r with (snd (true, r)). apply in_map.
    apply filter_In. now split.
Qed.

Lemma check_order_checks (fid o d dep arr pr : text) :
  (checks U fid o d dep arr pr).*2 = check_order.
Proof. reflexivity. Qed.

Lemma check_order_nodup : NoDup check_order.
Proof. apply (bool_decide_unpack (NoDup check_order)). vm_compute. exact I. Qed.

(** The loop of [isupper] answers no on a lowercase or titlecase character,
    or when no uppercase character is met. *)
Lemma isupper_loop_false (cased : bool) (s : text) :
  isupper_loop U cased s = false <->
  Exists (fun c => is_lower U c = true \/ is_title U c = true) s
  \/ (cased = false /\ Forall (fun c => is_upper U c = false) s).
Proof.
  revert cased. induction s as [|c s IH]; intros cased; simpl.
  - split.
    + intros ->. right. split; [reflexivity | constructor].
    + intros [H | [H _]]; [inversion H | exact H].
  - destruct (is_lower U c) eqn:Hl; simpl.
    { split; [| reflexivity]. intros _. left. constructor 1. now left. }
    destruct (is_title U c) eqn:Ht; simpl.
    { split; [| reflexivity]. intros _. left. constructor 1. now right. }
    rewrite IH. split.
    + intros [H | [Hc H]]; [left; now constructor 2 |].
      apply orb_false_iff in Hc as [-> Hup]. right. split; [reflexivity |].
      now constructor.
    + intros [H | [-> H]].
      * inversion H as [? ? [Hc | Hc] | ]; subst; [congruence | congruence |].
        now left.
      * inversion H; subst. right. split; [| assumption].
        simpl. assumption.
Qed.

(** The check on an airport code, character by character. *)
Lemma airport_ok_false (code : text) :
  airport_ok U code = false <-> airport_rule_fails U code.
Proof.
  unfold airport_ok, airport_rule_fails.
  destruct (Z.eqb_spec (len code) 3) as [Hlen | Hlen]; simpl.
  2:{ split; [intros _; now left | reflexivity]. }
  assert (Hloop : isupper U code = isupper_loop U false code).
  { destruct code as [|a [|b [|c [|e s]]]]; unfold len in Hlen; simpl in Hlen;
      try lia. reflexivity. }
  rewrite Hloop.
  destruct (isupper_loop U false code) eqn:Hup; simpl.
  - destruct (text_eqb code (lit "XXX")) eqn:Hx; simpl.
    + split; [| reflexivity]. intros _. do 3 right. now apply text_eqb_eq.
    + split; [discriminate |].
      intros [H | [H | [H | H]]].
      * contradiction.
      * assert (Hf : isupper_loop U false code = false)
          by (apply isupper_loop_false; now left).
        congruence.
      * assert (Hf : isupper_loop U false code = false)
          by (apply isupper_loop_false; now right).
        congruence.
      * apply text_eqb_neq in Hx. contradiction.
  - split; [| reflexivity]. intros _.
    apply isupper_loop_false in Hup as [H | [_ H]]; [right; now left |].
    right; right; now left.
Qed.
End ReasonFacts.

Section SpecFacts.
Variable U : ucd.




End SpecFacts.




(** C3, as amended.  On a line of six fields the reason for the origin is
    collected exactly when [check_airport] fails on the origin, and the
    reason for the destination exactly when it fails on the destination;
    the check fails on a code exactly when the length of the code is not 3,
    or the code has a lowercase or titlecase character, or it has no
    uppercase character, or it is the sentinel.  A character that is no
    letter does not make the check fail. *)
Theorem airport_reason_iff (U : ucd) (fid o d dep arr pr : text) :
  (In (lit "invalid origin code") (validate U fid o d dep arr pr)
   <-> airport_rule_fails U o)
  /\ (In (lit "invalid destination code") (validate U fid o d dep arr pr)
      <-> airport_rule_fails U d)
  /\ (forall code field_name,
        check_airport U code field_name <> None <-> airport_rule_fails U code).
Proof.
  assert (Hone : forall code r,
            In (negb (airport_ok U code), r) (checks U fid o d dep arr pr) ->
            (In r (validate U fid o d dep arr pr) <-> airport_rule_fails U code)).
  { intros code r Hin. rewrite validate_applicable. unfold applicable_reasons.
    rewrite (failing_reason (checks U fid o d dep arr pr) _ r
               (check_order_nodup) Hin).
    rewrite negb_true_iff. apply airport_ok_false. }
  split; [| split].
  - apply Hone. simpl. right. now left.
  - apply Hone. simpl. right. right. now left.
  - intros code field_name. rewrite <- airport_ok_false, check_airport_ok.
    destruct (airport_ok U code); split; intros H; congruence.
Qed.

(** C3, as stated, fails: the code [A1B] has a character that is not an
    uppercase letter, and the check passes it. *)
Lemma airport_digit_passes :
  (forall U, check_airport U (lit "A1B") (lit "origin") = None)
  /\ (forall U, airport_fails_as_specified U (lit "A1B") = true)
  /\ (forall U, In (lit "invalid origin code")
                  (validate U (lit "AB12") (lit "A1B") (lit "LAX")
                     (lit "2024-05-01 10:00") (lit "2024-05-01 14:00")
                     (lit "199.99")) -> False).
Proof.
  split; [| split]; intros U; vm_compute; try reflexivity.
  intros [].
Qed.

Section WrittenFacts.
Variable U : ucd.

(** Every number of a range has a property that holds of each of them. *)
Lemma range_cases (P : Z -> Prop) (lo : Z) (len : nat) :
  Forall P (map (fun i => (lo + Z.of_nat i)%Z) (seq 0 len)) ->
  forall n, (lo <= n < lo + Z.of_nat len)%Z -> P n.
Proof.
  intros H n Hn. rewrite Forall_forall in H. apply H.
  apply list_elem_of_In, in_map_iff. exists (Z.to_nat (n - lo)). split; [lia |].
  apply in_seq. lia.
Qed.

Lemma decimal_value_digit (n : Z) :
  (0 <= n <= 9)%Z -> decimal_value U (digit n) = Some (Z.to_N n).
Proof.
  intros Hn. pattern n. apply range_cases with (lo := 0%Z) (len := 10%nat);
    [| lia].
  repeat constructor.
Qed.

Lemma take_matched (p rest : text) :
  take (length (p ++ rest) - length rest) (p ++ rest) = p.
Proof.
  rewrite length_app, Nat.add_sub. now rewrite take_app_length.
Qed.

(** A group whose expression matches [p] first captures [p]. *)
Lemma rmatch_group {R} (g : group) (a : regex) (p rest : text)
    (caps : captures) (k : text -> captures -> option R) (v : R) :
  (forall k', k' rest caps = Some v -> rmatch a (p ++ rest) caps k' = Some v) ->
  k rest ((g, p) :: caps) = Some v ->
  rmatch (Grp g a) (p ++ rest) caps k = Some v.
Proof.
  intros Ha Hk. cbn [rmatch]. apply Ha. now rewrite take_matched.
Qed.

Lemma year_first {R} (y : Z) (rest : text) (caps : captures)
    (k : text -> captures -> option R) (v : R) :
  (0 <= y <= 9999)%Z ->
  k rest caps = Some v ->
  rmatch (seq_of [d U; d U; d U; d U]) (four_digits y ++ rest) caps k = Some v.
Proof.
  intros Hy Hk. unfold four_digits, d, is_decimal. cbn [seq_of rmatch app].
  assert (H1 : (0 <= y / 1000 <= 9)%Z)
    by (Z.to_euclidean_division_equations; lia).
  assert (H2 : (0 <= y / 100 mod 10 <= 9)%Z)
    by (Z.to_euclidean_division_equations; lia).
  assert (H3 : (0 <= y / 10 mod 10 <= 9)%Z)
    by (Z.to_euclidean_division_equations; lia).
  assert (H4 : (0 <= y mod 10 <= 9)%Z)
    by (Z.to_euclidean_division_equations; lia).
  rewrite !decimal_value_digit by assumption. exact Hk.
Qed.

Lemma month_first {R} (m : Z) (padded : bool) :
  (1 <= m <= 12)%Z ->
  forall (rest : text) (caps : captures) (k : text -> captures -> option R)
         (v : R),
    k (ch "-" :: rest) caps = Some v ->
    rmatch (alt_of [Seq (Chr (ch "1")) (rng "0" "2");
                    Seq (Chr (ch "0")) (rng "1" "9");
                    rng "1" "9"])
      (number_text padded m ++ ch "-" :: rest) caps k = Some v.
Proof.
  intros Hm. pattern m. apply range_cases with (lo := 1%Z) (len := 12%nat);
    [| lia].
  destruct padded; repeat apply Forall_cons_2; try apply Forall_nil_2.
  all: intros rest caps k v Hk.
  all: vm_compute in Hk |- *; now rewrite Hk.
Qed.

Lemma day_first {R} (n : Z) (padded : bool) :
  (1 <= n <= 31)%Z ->
  forall (rest : text) (caps : captures) (k : text -> captures -> option R)
         (v : R),
    k (ch " " :: rest) caps = Some v ->
    rmatch (alt_of [Seq (Chr (ch "3")) (rng "0" "1");
                    Seq (rng "1" "2") (d U);
                    Seq (Chr (ch "0")) (rng "1" "9");
                    rng "1" "9";
                    Seq (Chr (ch " ")) (rng "1" "9")])
      (number_text padded n ++ ch " " :: rest) caps k = Some v.
Proof.
  intros Hn. pattern n. apply range_cases with (lo := 1%Z) (len := 31%nat);
    [| lia].
  destruct padded; repeat apply Forall_cons_2; try apply Forall_nil_2.
  all: intros rest caps k v Hk.
  all: vm_compute in Hk |- *; now rewrite Hk.
Qed.

Lemma space_before_hour {R} (n : Z) (padded : bool) :
  (0 <= n <= 23)%Z ->
  forall (rest : text) (k : text -> option R),
    plus_match is_space (ch " " :: number_text padded n ++ rest) k
    = k (number_text padded n ++ rest).
Proof.
  intros Hn. pattern n. apply range_cases with (lo := 0%Z) (len := 24%nat);
    [| lia].
  destruct padded; repeat apply Forall_cons_2; try apply Forall_nil_2.
  all: intros rest k; vm_compute; reflexivity.
Qed.

Lemma hour_first {R} (n : Z) (padded : bool) :
  (0 <= n <= 23)%Z ->
  forall (rest : text) (caps : captures) (k : text -> captures -> option R)
         (v : R),
    k (ch ":" :: rest) caps = Some v ->
    rmatch (alt_of [Seq (Chr (ch "2")) (rng "0" "3");
                    Seq (rng "0" "1") (d U);
                    d U])
      (number_text padded n ++ ch ":" :: rest) caps k = Some v.
Proof.
  intros Hn. pattern n. apply range_cases with (lo := 0%Z) (len := 24%nat);
    [| lia].
  destruct padded; repeat apply Forall_cons_2; try apply Forall_nil_2.
  all: intros rest caps k v Hk.
  all: vm_compute in Hk |- *; now rewrite Hk.
Qed.

Lemma minute_first {R} (n : Z) (padded : bool) :
  (0 <= n <= 59)%Z ->
  forall (caps : captures) (k : text -> captures -> option R) (v : R),
    k [] caps = Some v ->
    rmatch (alt_of [Seq (rng "0" "5") (d U); d U])
      (number_text padded n ++ []) caps k = Some v.
Proof.
  intros Hn. pattern n. apply range_cases with (lo := 0%Z) (len := 60%nat);
    [| lia].
  destruct padded; repeat apply Forall_cons_2; try apply Forall_nil_2.
  all: intros caps k v Hk.
  all: vm_compute in Hk |- *; now rewrite Hk.
Qed.

Lemma rmatch_seq {R} (a b : regex) (s : text) (caps : captures)
    (k : text -> captures -> option R) :
  rmatch (Seq a b) s caps k
  = rmatch a s caps (fun s' caps' => rmatch b s' caps' k).
Proof. reflexivity. Qed.

Lemma rmatch_chr {R} (c : char) (s : text) (caps : captures)
    (k : text -> captures -> option R) :
  rmatch (Chr c) (c :: s) caps k = k s caps.
Proof. cbn [rmatch]. now rewrite N.eqb_refl. Qed.

Lemma rmatch_plus {R} (p : char -> bool) (s : text) (caps : captures)
    (k : text -> captures -> option R) :
  rmatch (Plus p) s caps k = plus_match p s (fun s' => k s' caps).
Proof. reflexivity. Qed.

(** The expression of the format matches a timestamp as it is written, and
    its groups capture the five numbers. *)
Lemma format_matches_written (p : padding) (t : datetime) :
  valid t = true ->
  re_match (format_regex U) (written p t)
  = Some ([], [ (GM, number_text (pad_minute p) (minute t));
                (GH, number_text (pad_hour p) (hour t));
                (Gd, number_text (pad_day p) (day t));
                (Gm, number_text (pad_month p) (month t));
                (GY, four_digits (year t)) ]).
Proof.
  unfold valid, check_fields. intros Hv.
  repeat (apply andb_prop in Hv as [Hv ?]).
  assert (Hd : (day t <= 31)%Z).
  { assert (days_in_month (year t) (month t) <= 31)%Z; [| lia].
    unfold days_in_month. repeat case_match; lia. }
  unfold re_match, format_regex, written, spaces. cbn [seq_of].
  rewrite rmatch_seq.
  apply rmatch_group; [intros k'; apply year_first; lia |].
  rewrite rmatch_seq, rmatch_chr, rmatch_seq.
  apply rmatch_group; [intros k'; apply month_first; lia |].
  rewrite rmatch_seq, rmatch_chr, rmatch_seq.
  apply rmatch_group; [intros k'; apply day_first; lia |].
  rewrite rmatch_seq, rmatch_plus, space_before_hour by lia.
  rewrite rmatch_seq.
  apply rmatch_group; [intros k'; apply hour_first; lia |].
  rewrite rmatch_seq, rmatch_chr.
  rewrite <- (app_nil_r (number_text (pad_minute p) (minute t))).
  apply rmatch_group; [intros k'; apply minute_first; lia |].
  now rewrite app_nil_r.
Qed.

Lemma range_check (f : Z -> bool) (lo hi : Z) :
  forallb f (map (fun i => (lo + Z.of_nat i)%Z)
               (seq 0 (Z.to_nat (hi - lo + 1)))) = true ->
  forall n, (lo <= n <= hi)%Z -> f n = true.
Proof.
  intros H n Hn. rewrite forallb_forall in H. apply H.
  apply in_map_iff. exists (Z.to_nat (n - lo)). split; [lia |].
  apply in_seq. lia.
Qed.

Lemma int_of_four_digits (y : Z) :
  (0 <= y <= 9999)%Z -> int_of_text U (four_digits y) = Some y.
Proof.
  intros Hy.
  pose proof (range_check
                (fun n => bool_decide (int_of_text U (four_digits n) = Some n))
                0 9999) as H.
  cbv beta in H. eapply bool_decide_eq_true_1, H; [| lia].
  vm_compute. reflexivity.
Qed.

Lemma int_of_number_text (padded : bool) (n : Z) :
  (0 <= n <= 99)%Z -> int_of_text U (number_text padded n) = Some n.
Proof.
  intros Hn.
  pose proof (range_check
                (fun n => bool_decide
                            (int_of_text U (number_text padded n) = Some n))
                0 99) as H.
  cbv beta in H. eapply bool_decide_eq_true_1, H; [| lia].
  destruct padded; vm_compute; reflexivity.
Qed.

(** [strptime] reads a timestamp as it is written, with or without the
    leading zeros. *)
Lemma strptime_written (p : padding) (t : datetime) :
  valid t = true -> strptime U (written p t) = Some t.
Proof.
  intros Hv. unfold strptime. rewrite (format_matches_written p t Hv).
  unfold int_group. cbn [found group_eqb mbind option_bind].
  pose proof Hv as Hv'. unfold valid, check_fields in Hv'.
  repeat (apply andb_prop in Hv' as [Hv' ?]).
  assert (Hd : (day t <= 31)%Z).
  { assert (days_in_month (year t) (month t) <= 31)%Z; [| lia].
    unfold days_in_month. repeat case_match; lia. }
  rewrite int_of_four_digits by lia.
  rewrite !int_of_number_text by lia.
  cbn [mbind option_bind]. unfold valid in Hv. rewrite Hv. now destruct t.
Qed.

End WrittenFacts.

(** C10.  The timestamp checks accept the month, the day, the hour and the
    minute with or without a leading zero: a timestamp of a date that
    exists, written either way, is read by [strptime] as that date, and
    neither timestamp check collects a reason for it, whatever the other
    fields of the line.  The record of an accepted line holds the fourth
    and the fifth field of the line as they stand, so a line whose other
    checks pass is accepted with its timestamps as they were written. *)
Theorem timestamps_kept_verbatim (U : ucd) :
  (forall p t, valid t = true -> strptime U (written p t) = Some t)
  /\ (forall p t fid o d other pr,
        valid t = true ->
        ~ In (lit "invalid departure datetime")
             (validate U fid o d (written p t) other pr)
        /\ ~ In (lit "invalid arrival datetime")
               (validate U fid o d other (written p t) pr))
  /\ (forall n raw fl,
        process_line U n raw = Ok (Accepted fl) ->
        exists fid o d pr,
          split (ch ",") (strip raw)
          = [fid; o; d; departure_datetime fl; arrival_datetime fl; pr])
  /\ (forall n raw fid o d pr p_dep p_arr dep arr price,
        is_data raw = true ->
        split (ch ",") (strip raw)
        = [fid; o; d; written p_dep dep; written p_arr arr; pr] ->
        flight_id_ok U fid = true ->
        check_airport U o (lit "origin") = None ->
        check_airport U d (lit "destination") = None ->
        valid dep = true -> valid arr = true ->
        DateTime.gtb arr dep = true ->
        float_of_text U pr = Some price ->
        PyFloat.le (Float price) (Int 0) = false ->
        process_line U n raw
        = Ok (Accepted {| flight_id := fid; origin := o; destination := d;
                          departure_datetime := written p_dep dep;
                          arrival_datetime := written p_arr arr;
                          price := Float price |})).
Proof.
  split; [| split; [| split]].
  - intros p t Hv. now apply strptime_written.
  - intros p t fid o d other pr Hv.
    assert (Hp : parses U (written p t) = true)
      by (unfold parses; now rewrite strptime_written).
    rewrite !validate_applicable. unfold applicable_reasons. split.
    + rewrite (failing_reason (checks U fid o d (written p t) other pr)
                 (negb (parses U (written p t))) _ check_order_nodup).
      * rewrite Hp. discriminate.
      * simpl. tauto.
    + rewrite (failing_reason (checks U fid o d other (written p t) pr)
                 (negb (parses U (written p t))) _ check_order_nodup).
      * rewrite Hp. discriminate.
      * simpl. tauto.
  - intros n raw fl H. apply accepted_inv in H as (pr & p & _ & Hs & _). eauto.
  - intros n raw fid o d pr p_dep p_arr dep arr price Hd Hs Hf Ho Hde Hvd Hva
      Hgt Hp Hle.
    eapply passing_line_accepted; eauto using strptime_written.
Qed.

Lemma timestamps_kept_verbatim_witness :
  process_line ascii_only 1 bare_line
  = Ok (Accepted
          {| flight_id := lit "AB12"; origin := lit "JFK";
             destination := lit "LAX";
             departure_datetime := lit "2024-5-1 9:5";
             arrival_datetime := lit "2024-5-2 0:7";
             price := Float (of_decimal false 19999 (-2)) |})
  /\ strptime ascii_only (lit "2024-5-1 9:05")
     = Some {| year := 2024; month := 5; day := 1; hour := 9; minute := 5 |}.
Proof.
  split.
  - refine (proj2 (proj2 (proj2 (timestamps_kept_verbatim ascii_only)))
              1%nat bare_line (lit "AB12") (lit "JFK") (lit "LAX")
              (lit "199.99")
              {| pad_month := false; pad_day := false; pad_hour := false;
                 pad_minute := false |}
              {| pad_month := false; pad_day := false; pad_hour := false;
                 pad_minute := false |}
              {| year := 2024; month := 5; day := 1; hour := 9; minute := 5 |}
              {| year := 2024; month := 5; day := 2; hour := 0; minute := 7 |}
              (of_decimal false 19999 (-2)) _ _ _ _ _ _ _ _ _ _);
      vm_compute; reflexivity.
  - exact (proj1 (timestamps_kept_verbatim ascii_only)
             {| pad_month := false; pad_day := false; pad_hour := false;
                pad_minute := true |}
             {| year := 2024; month := 5; day := 1; hour := 9; minute := 5 |}
             eq_refl).
Defined.

Section PartitionFacts.
Variable U : ucd.

(** What the loop appends, counted line by line. *)
Lemma parse_lines_counts (lines : list text) :
  forall n valid errors,
  exists v e,
    parse_lines U n lines valid errors = Ok (valid ++ v, errors ++ e)
    /\ length v = count_lines (accepted_at U) n lines
    /\ length e = (count_lines (rejected_at U) n lines
                   + count_lines comment_at n lines)%nat.
Proof.
  induction lines as [|raw rest IH]; intros n valid errors.
  - exists [], []. simpl. now rewrite !app_nil_r.
  - pose proof (data_line_outcome U n raw) as Hout.
    pose proof (line_kinds raw) as Hkinds.
    simpl. unfold comment_at at 1. unfold accepted_at at 1, rejected_at at 1.
    unfold accepted_at, rejected_at in Hout.
    destruct (is_comment raw) eqn:Hc.
    + rewrite (process_line_comment U n raw Hc) in *. simpl.
      destruct (IH (S n) valid (errors ++ [entry n (strip raw)
                  (lit "comment line, ignored for data parsing")]))
        as (v & e & -> & Hv & He).
      exists v, (entry n (strip raw)
                   (lit "comment line, ignored for data parsing") :: e).
      split; [now rewrite <- app_assoc |]. split; [exact Hv |].
      simpl. lia.
    + destruct (process_line_total U n raw) as [o Ho]. rewrite Ho in *. simpl.
      destruct o as [| e0 | e0 | f].
      * destruct (IH (S n) valid errors) as (v & e & -> & Hv & He).
        exists v, e. repeat split; [exact Hv | lia].
      * exfalso. destruct (is_blank raw) eqn:Hb.
        { rewrite (process_line_blank U n raw Hb) in Ho. discriminate. }
        destruct (is_header raw) eqn:Hh.
        { rewrite (process_line_header U n raw Hh) in Ho. discriminate. }
        assert (Hd : is_data raw = true)
          by (unfold is_data; now rewrite Hb, Hc, Hh).
        rewrite Hd in Hout. simpl in Hout. lia.
      * destruct (IH (S n) valid (errors ++ [e0])) as (v & e & -> & Hv & He).
        exists v, (e0 :: e).
        split; [now rewrite <- app_assoc |]. split; [exact Hv |].
        simpl. lia.
      * destruct (IH (S n) (valid ++ [f]) errors) as (v & e & -> & Hv & He).
        exists (f :: v), e.
        split; [now rewrite <- app_assoc |]. split; [simpl; lia | exact He].
Qed.

(** The five kinds of line are counted once each. *)
Lemma count_lines_total (lines : list text) :
  forall n,
  (count_lines (accepted_at U) n lines + count_lines (rejected_at U) n lines
   + count_lines blank_at n lines + count_lines comment_at n lines
   + count_lines header_at n lines = length lines)%nat.
Proof.
  induction lines as [|raw rest IH]; intros n; [reflexivity |].
  simpl. specialize (IH (S n)).
  pose proof (data_line_outcome U n raw) as Hout.
  pose proof (line_kinds raw) as Hkinds.
  unfold blank_at at 1, comment_at at 1, header_at at 1.
  destruct (accepted_at U n raw), (rejected_at U n raw), (is_blank raw),
    (is_comment raw), (is_header raw), (is_data raw); simpl in *; lia.
Qed.
End PartitionFacts.

(** C5.  [parse_csv_file] returns for every list of lines, and every line
    that is not blank, not a comment and not a header is either accepted or
    rejected: the accepted lines are the records returned, the error entries
    are the rejected lines and the comment notices, and the accepted and the
    rejected lines together are the lines left when the blank, comment and
    header lines are taken away. *)
Theorem lines_partition (U : ucd) (lines : list text) :
  exists valid errors,
    parse_csv_file U lines = Ok (valid, errors)
    /\ (forall n raw,
          is_data raw = true ->
          accepted_at U n raw = negb (rejected_at U n raw))
    /\ (forall n raw,
          is_data raw = false ->
          accepted_at U n raw = false /\ rejected_at U n raw = false)
    /\ length valid = count_lines (accepted_at U) 1 lines
    /\ length errors = (count_lines (rejected_at U) 1 lines
                        + count_lines comment_at 1 lines)%nat
    /\ (count_lines (accepted_at U) 1 lines
        + count_lines (rejected_at U) 1 lines
        = length lines - count_lines blank_at 1 lines
          - count_lines comment_at 1 lines
          - count_lines header_at 1 lines)%nat.
Proof.
  destruct (parse_lines_counts U lines 1 [] []) as (v & e & Hp & Hv & He).
  exists v, e. split; [exact Hp |].
  split; [| split; [| split; [exact Hv | split; [exact He |]]]].
  - intros n raw Hd. pose proof (data_line_outcome U n raw) as H.
    rewrite Hd in H.
    destruct (accepted_at U n raw), (rejected_at U n raw); simpl in *;
      try reflexivity; lia.
  - intros n raw Hd. pose proof (data_line_outcome U n raw) as H.
    rewrite Hd in H.
    destruct (accepted_at U n raw), (rejected_at U n raw); simpl in *;
      try lia; auto.
  - pose proof (count_lines_total U lines 1) as H. lia.
Qed.

Lemma lines_partition_witness :
  exists valid errors,
    parse_csv_file ascii_only small_file = Ok (valid, errors)
    /\ length valid = 1%nat /\ length errors = 3%nat
    /\ count_lines (accepted_at ascii_only) 1 small_file = 1%nat
    /\ count_lines (rejected_at ascii_only) 1 small_file = 2%nat
    /\ count_lines blank_at 1 small_file = 1%nat
    /\ count_lines comment_at 1 small_file = 1%nat
    /\ count_lines header_at 1 small_file = 1%nat.
Proof.
  destruct (lines_partition ascii_only small_file)
    as (valid & errors & Hp & _ & _ & Hv & He & _).
  exists valid, errors. split; [exact Hp |].
  rewrite Hv, He. vm_compute. repeat split.
Defined.

(* ===================================================================== *)
(** * Properties of the query loop *)
(* ===================================================================== *)

Section OrderFacts.

(** On valid datetimes the comparison of [datetime] is the comparison of
    their places in time. *)
Lemma compare_timeline (a b : datetime) :
  DateTime.valid a = true -> DateTime.valid b = true ->
  DateTime.compare a b = (timeline a ?= timeline b)%Z.
Proof.
  unfold DateTime.valid, check_fields, DateTime.compare, timeline, and_then.
  destruct a as [ya ma da ha mia], b as [yb mb db hb mib]; simpl.
  intros Ha Hb.
  repeat (apply andb_true_iff in Ha as [Ha ?]).
  repeat (apply andb_true_iff in Hb as [Hb ?]).
  assert (da <= 31 /\ db <= 31)%Z as [Hda Hdb].
  { unfold days_in_month in *.
    split; repeat match goal with
                  | H : context [if ?c then _ else _] |- _ => destruct c
                  end; lia. }
  symmetry.
  destruct (Z.compare_spec ya yb); [| apply Z.compare_lt_iff; lia
                                    | apply Z.compare_gt_iff; lia].
  destruct (Z.compare_spec ma mb); [| apply Z.compare_lt_iff; lia
                                    | apply Z.compare_gt_iff; lia].
  destruct (Z.compare_spec da db); [| apply Z.compare_lt_iff; lia
                                    | apply Z.compare_gt_iff; lia].
  destruct (Z.compare_spec ha hb); [| apply Z.compare_lt_iff; lia
                                    | apply Z.compare_gt_iff; lia].
  subst. destruct (Z.compare_spec mia mib);
    [apply Z.compare_eq_iff | apply Z.compare_lt_iff | apply Z.compare_gt_iff];
    lia.
Qed.

Lemma ltb_geb (a b : datetime) : DateTime.ltb a b = negb (DateTime.geb a b).
Proof. unfold DateTime.ltb, DateTime.geb. now destruct (DateTime.compare a b). Qed.

Lemma gtb_leb (a b : datetime) : DateTime.gtb a b = negb (DateTime.leb a b).
Proof. unfold DateTime.gtb, DateTime.leb. now destruct (DateTime.compare a b). Qed.
End OrderFacts.

Section QueryFacts.
Variable U : ucd.

(** A datetime returned by [strptime] is valid. *)
Lemma strptime_valid (s : text) (t : datetime) :
  strptime U s = Some t -> DateTime.valid t = true.
Proof.
  unfold strptime. destruct (re_match (format_regex U) s) as [[[|? ?] caps]|];
    try discriminate.
  destruct (int_group U caps GY) as [y|]; simpl; [| discriminate].
  destruct (int_group U caps Gm) as [m|]; simpl; [| discriminate].
  destruct (int_group U caps Gd) as [d|]; simpl; [| discriminate].
  destruct (int_group U caps GH) as [h|]; simpl; [| discriminate].
  destruct (int_group U caps GM) as [mi|]; simpl; [| discriminate].
  destruct (check_fields y m d h mi) eqn:Hc; [| discriminate].
  intros [= <-]. exact Hc.
Qed.

(** An item either leaves [ok] as it is or sets it to false, and what it
    does and whether it raises do not depend on [ok]. *)
Lemma check_item_ok (f : flight) (ok : bool) (key : text) (value : json) :
  check_item U f ok key value =
  match check_item U f true key value with
  | Ok b => Ok (ok && b)
  | Raise e => Raise e
  end.
Proof.
  unfold check_item.
  destruct (text_eqb key (lit "flight_id") || text_eqb key (lit "origin")
            || text_eqb key (lit "destination")).
  { destruct (str_ne (exact_field f key) value), ok; reflexivity. }
  destruct (text_eqb key (lit "price")).
  { destruct (num_gt (price f) value) as [[]|]; simpl; destruct ok; reflexivity. }
  destruct (text_eqb key (lit "departure_datetime")).
  { destruct (to_dt U (JStr (departure_datetime f))) as [a|]; simpl;
      [| reflexivity].
    destruct (to_dt U value) as [b|]; simpl; [| reflexivity].
    destruct (DateTime.ltb a b), ok; reflexivity. }
  destruct (text_eqb key (lit "arrival_datetime")).
  { destruct (to_dt U (JStr (arrival_datetime f))) as [a|]; simpl;
      [| reflexivity].
    destruct (to_dt U value) as [b|]; simpl; [| reflexivity].
    destruct (DateTime.gtb a b), ok; reflexivity. }
  destruct ok; reflexivity.
Qed.

(** [ok] ends true only when it starts true and every item leaves it. *)
Lemma check_items_true (f : flight) (q : query) :
  forall ok,
  check_items U f ok q = Ok true ->
  ok = true /\ forall key value, In (key, value) q ->
                                 check_item U f true key value = Ok true.
Proof.
  induction q as [|[k v] q IH]; intros ok H; simpl in H.
  - injection H as ->. split; [reflexivity | intros ? ? []].
  - rewrite check_item_ok in H.
    destruct (check_item U f true k v) as [b|e] eqn:Hk; simpl in H;
      [| discriminate].
    apply IH in H as [Hok Hrest]. apply andb_true_iff in Hok as [-> ->].
    split; [reflexivity |].
    intros key value [[= <- <-] | Hin]; [exact Hk | now apply Hrest].
Qed.

(** The loop over the flights is a filter. *)
Lemma find_matches_filter (q : query) (db : list flight) :
  forall acc ms,
  find_matches U q db acc = Ok ms ->
  ms = acc ++ List.filter (satisfies U q) db.
Proof.
  induction db as [|f db IH]; intros acc ms H; simpl in H.
  - injection H as <-. simpl. now rewrite app_nil_r.
  - unfold satisfies at 1. simpl.
    destruct (check_items U f true q) as [[]|e]; simpl in H; [| | discriminate].
    + apply IH in H. rewrite H, <- app_assoc. reflexivity.
    + now apply IH in H.
Qed.

Lemma filter_sublist {A} (p : A -> bool) (l : list A) :
  List.filter p l `sublist_of` l.
Proof.
  induction l as [|x l IH]; simpl; [constructor |].
  destruct (p x); now constructor.
Qed.

(** The loop over the predicate sets answers them one by one, in order. *)
Lemma answer_each (db : list flight) (qs : list query) :
  forall acc rs,
  answer U db qs acc = Ok rs ->
  exists rs',
    rs = acc ++ rs'
    /\ Forall2 (fun q r => resp_query r = q
                           /\ find_matches U q db [] = Ok (resp_matches r))
               qs rs'.
Proof.
  induction qs as [|q qs IH]; intros acc rs H; simpl in H.
  - injection H as <-. exists []. split; [now rewrite app_nil_r | constructor].
  - destruct (find_matches U q db []) as [ms|e] eqn:Hm; simpl in H;
      [| discriminate].
    apply IH in H as (rs' & -> & Hall).
    exists ({| resp_query := q; resp_matches := ms |} :: rs').
    split; [now rewrite <- app_assoc |].
    constructor; [split; [reflexivity | exact Hm] | exact Hall].
Qed.

(** An exception in one predicate set ends the whole run: no response is
    returned, not even for the predicate sets before it. *)
Lemma answer_raises (db : list flight) (qs1 qs2 : list query) (q : query)
    (e : exn) :
  Forall (fun q' => exists ms, find_matches U q' db [] = Ok ms) qs1 ->
  find_matches U q db [] = Raise e ->
  forall acc, answer U db (qs1 ++ q :: qs2) acc = Raise e.
Proof.
  intros Hok Hq. induction Hok as [|q' qs1 [ms Hms] _ IH]; intros acc; simpl.
  - now rewrite Hq.
  - rewrite Hms. simpl. apply IH.
Qed.

(** On typed records and typed items the loops raise nothing. *)
Lemma to_dt_parses (s : text) :
  parses U s = true -> exists t, to_dt U (JStr s) = Ok t.
Proof.
  unfold parses, to_dt. destruct (strptime U s) as [t|]; [| discriminate].
  intros _. now exists t.
Qed.

Lemma check_item_total (f : flight) (ok : bool) (item : text * json) :
  flight_typed U f = true -> item_typed U item = true ->
  exists b, check_item U f ok (fst item) (snd item) = Ok b.
Proof.
  destruct item as [key value]. unfold flight_typed, item_typed, check_item.
  cbn [fst snd]. intros Hf Hi. apply andb_true_iff in Hf as [Hdep Harr].
  destruct (text_eqb key (lit "flight_id") || text_eqb key (lit "origin")
            || text_eqb key (lit "destination")); [eauto |].
  destruct (text_eqb key (lit "price")).
  { destruct value; try discriminate; cbn [num_gt mbind result_bind]; eauto. }
  destruct (text_eqb key (lit "departure_datetime")); cbn [orb] in Hi.
  { destruct value as [| | | |s| |]; try discriminate.
    destruct (to_dt_parses _ Hdep) as [a ->].
    destruct (to_dt_parses _ Hi) as [b ->]. cbn [mbind result_bind]. eauto. }
  destruct (text_eqb key (lit "arrival_datetime")); cbn [orb] in Hi.
  { destruct value as [| | | |s| |]; try discriminate.
    destruct (to_dt_parses _ Harr) as [a ->].
    destruct (to_dt_parses _ Hi) as [b ->]. cbn [mbind result_bind]. eauto. }
  eauto.
Qed.

Lemma check_items_total (f : flight) (q : query) :
  flight_typed U f = true -> Forall (fun i => item_typed U i = true) q ->
  forall ok, exists b, check_items U f ok q = Ok b.
Proof.
  intros Hf Hq. induction Hq as [|[k v] q Hi _ IH]; intros ok; simpl.
  - eauto.
  - destruct (check_item_total f ok (k, v) Hf Hi) as [b Hb]. simpl in Hb.
    rewrite Hb. simpl. apply IH.
Qed.

Lemma find_matches_total (q : query) (db : list flight) :
  Forall (fun f => flight_typed U f = true) db ->
  Forall (fun i => item_typed U i = true) q ->
  forall acc, exists ms, find_matches U q db acc = Ok ms.
Proof.
  intros Hdb Hq. induction Hdb as [|f db Hf _ IH]; intros acc; simpl.
  - eauto.
  - destruct (check_items_total f q Hf Hq true) as [b ->]. simpl. apply IH.
Qed.

(** The query part of [main] returns its responses when every record and
    every predicate set is typed. *)
Lemma run_queries_total (db : list flight) (qs : list query) :
  Forall (fun f => flight_typed U f = true) db ->
  Forall (Forall (fun i => item_typed U i = true)) qs ->
  exists rs, run_queries U db qs = Ok rs.
Proof.
  intros Hdb Hqs. unfold run_queries. generalize (@nil response).
  induction Hqs as [|q qs Hq _ IH]; intros acc; simpl.
  - eauto.
  - destruct (find_matches_total q db Hdb Hq []) as [ms ->]. simpl. apply IH.
Qed.

(** The records of an accepted line are typed. *)
Lemma invariants_typed (f : flight) :
  record_invariants U f -> flight_typed U f = true.
Proof.
  intros (_ & _ & _ & (dep & arr & Hd & Ha & _) & _).
  unfold flight_typed, parses. now rewrite Hd, Ha.
Qed.
End QueryFacts.

Section PriceFacts.
Variable U : ucd.

Lemma num_gt_as_number (p : number) (value : json) (v : number) :
  as_number value = Some v -> num_gt p value = Ok (PyFloat.gt p v).
Proof. destruct value; simpl; intros [= <-]; reflexivity. Qed.

(** What the item of the price does to [ok]. *)
Lemma price_item (f : flight) (ok : bool) (value : json) (v : number) :
  as_number value = Some v ->
  check_item U f ok (lit "price") value
  = Ok (ok && negb (PyFloat.gt (price f) v)).
Proof.
  intros H. unfold check_item.
  change (text_eqb (lit "price") (lit "flight_id")
          || text_eqb (lit "price") (lit "origin")
          || text_eqb (lit "price") (lit "destination")) with false.
  change (text_eqb (lit "price") (lit "price")) with true.
  cbv iota. rewrite (num_gt_as_number _ _ _ H). simpl.
  destruct (PyFloat.gt (price f) v), ok; reflexivity.
Qed.

Lemma price_satisfies (f : flight) (value : json) (v : number) :
  as_number value = Some v ->
  satisfies U [(lit "price", value)] f = negb (PyFloat.gt (price f) v).
Proof.
  intros H. unfold satisfies. cbn [check_items].
  rewrite (price_item f true value v H).
  cbn [mbind result_bind check_items andb].
  now destruct (PyFloat.gt (price f) v).
Qed.

(** The part of C7 that holds on every database: a record kept under a
    bound is kept under every greater bound. *)
Lemma price_matches_monotone (db : list flight) (value' value : json)
    (v' v : number) (ms' ms : list flight) :
  as_number value' = Some v' -> as_number value = Some v ->
  PyFloat.le v' v = true ->
  find_matches U [(lit "price", value')] db [] = Ok ms' ->
  find_matches U [(lit "price", value)] db [] = Ok ms ->
  forall f, In f ms' -> In f ms.
Proof.
  intros H' H Hle Hm' Hm f Hin.
  apply find_matches_filter in Hm', Hm. simpl in Hm', Hm. subst ms' ms.
  apply filter_In in Hin as [Hin Hs]. apply filter_In. split; [exact Hin |].
  rewrite (price_satisfies f value' v' H') in Hs.
  rewrite (price_satisfies f value v H).
  apply negb_true_iff in Hs. apply negb_true_iff.
  now apply (price_bound_monotone (price f) v' v).
Qed.

(** The other part holds for the records whose price is not a NaN: one kept
    under a bound has a price at most the bound. *)
Lemma price_matches_le (db : list flight) (value : json) (v : number)
    (ms : list flight) :
  as_number value = Some v ->
  (exists y, PyFloat.value v = Some y) ->
  find_matches U [(lit "price", value)] db [] = Ok ms ->
  forall f, In f ms ->
    (exists x, PyFloat.value (price f) = Some x) ->
    PyFloat.le (price f) v = true.
Proof.
  intros H Hy Hm f Hin Hx.
  apply find_matches_filter in Hm. simpl in Hm. subst ms.
  apply filter_In in Hin as [_ Hs].
  rewrite (price_satisfies f value v H) in Hs. apply negb_true_iff in Hs.
  now apply price_kept_le.
Qed.
End PriceFacts.

(** C8.  The matches of every response are the records of the database
    that satisfy the predicate set, in the order of the database: a
    subsequence of it.  The responses come one per predicate set, in the
    order of the batch. *)
Theorem matches_keep_order (U : ucd) (db : list flight) (qs : list query)
    (rs : list response) :
  run_queries U db qs = Ok rs ->
  Forall2 (fun q r =>
             resp_query r = q
             /\ resp_matches r = List.filter (satisfies U q) db
             /\ resp_matches r `sublist_of` db)
          qs rs.
Proof.
  intros H. apply answer_each in H as (rs' & -> & Hall). simpl.
  induction Hall as [|q r qs rs' [Hq Hm] _ IH]; constructor; [| exact IH].
  apply find_matches_filter in Hm. simpl in Hm.
  split; [exact Hq |]. split; [exact Hm |].
  rewrite Hm. apply filter_sublist.
Qed.

Lemma matches_keep_order_witness :
  Forall2 (fun q r =>
             resp_query r = q
             /\ resp_matches r = List.filter (satisfies ascii_only q)
                                   [ab12; nan_record; inf_record]
             /\ resp_matches r `sublist_of` [ab12; nan_record; inf_record])
    [ [(lit "origin", JStr (lit "JFK")); (lit "price", JInt 200)]; [] ]
    [ {| resp_query := [(lit "origin", JStr (lit "JFK")); (lit "price", JInt 200)];
         resp_matches := [ab12; nan_record] |};
      {| resp_query := []; resp_matches := [ab12; nan_record; inf_record] |} ].
Proof.
  apply (matches_keep_order ascii_only [ab12; nan_record; inf_record]).
  vm_compute. reflexivity.
Defined.

(** C4, as amended.  The key of the lower bound on the departure is
    [departure_datetime].  For a record whose departure is in the format and
    a bound that is in the format, the item leaves [ok] as it is exactly
    when the departure is at or after the bound; the predicate set made of
    this item alone matches the record exactly in that case, and a record
    matched by any predicate set with this item has its departure at or
    after the bound. *)
Theorem departure_lower_bound (U : ucd) (f : flight) (v : text)
    (tf tq : datetime) :
  strptime U (departure_datetime f) = Some tf ->
  strptime U v = Some tq ->
  (forall ok,
     check_item U f ok (lit "departure_datetime") (JStr v)
     = Ok (ok && DateTime.geb tf tq))
  /\ (satisfies U [(lit "departure_datetime", JStr v)] f = true
      <-> DateTime.geb tf tq = true)
  /\ (forall q db ms,
        In (lit "departure_datetime", JStr v) q ->
        find_matches U q db [] = Ok ms ->
        In f ms -> DateTime.geb tf tq = true)
  /\ (DateTime.geb tf tq = true <-> (timeline tq <= timeline tf)%Z).
Proof.
  intros Hf Hq.
  assert (Hitem : forall ok,
            check_item U f ok (lit "departure_datetime") (JStr v)
            = Ok (ok && DateTime.geb tf tq)).
  { intros ok. unfold check_item.
    change (text_eqb (lit "departure_datetime") (lit "flight_id")
            || text_eqb (lit "departure_datetime") (lit "origin")
            || text_eqb (lit "departure_datetime") (lit "destination"))
      with false.
    change (text_eqb (lit "departure_datetime") (lit "price")) with false.
    change (text_eqb (lit "departure_datetime") (lit "departure_datetime"))
      with true.
    cbv iota. unfold to_dt. rewrite Hf, Hq. simpl.
    rewrite ltb_geb. destruct (DateTime.geb tf tq), ok; reflexivity. }
  split; [exact Hitem |]. split; [| split].
  - unfold satisfies. cbn [check_items]. rewrite Hitem.
    cbn [mbind result_bind check_items andb].
    destruct (DateTime.geb tf tq); split; congruence.
  - intros q db ms Hin Hm Hfm.
    apply find_matches_filter in Hm. simpl in Hm. subst ms.
    apply filter_In in Hfm as [_ Hs]. unfold satisfies in Hs.
    destruct (check_items U f true q) as [[]|] eqn:Hc; try discriminate.
    apply check_items_true in Hc as [_ Hall].
    specialize (Hall _ _ Hin). rewrite Hitem in Hall. now injection Hall.
  - unfold DateTime.geb.
    rewrite (compare_timeline tf tq (strptime_valid U _ _ Hf)
               (strptime_valid U _ _ Hq)).
    destruct (Z.compare_spec (timeline tf) (timeline tq)); split;
      intros; try reflexivity; try discriminate; lia.
Qed.

Lemma departure_lower_bound_witness :
  satisfies ascii_only
    [(lit "departure_datetime", JStr (lit "2024-05-02 00:00"))] ab12 = true
  <-> DateTime.geb
        {| year := 2024; month := 5; day := 1; hour := 10; minute := 0 |}
        may_2 = true.
Proof.
  refine (proj1 (proj2 (departure_lower_bound ascii_only ab12
                          (lit "2024-05-02 00:00") _ may_2 _ _)));
    vm_compute; reflexivity.
Defined.

(** C4, as stated, fails: the key [departure_time] is no key of the loop.
    A predicate set that bounds the departure under that key matches a
    record that departs before the bound. *)
Lemma departure_time_key_ignored :
  (forall U,
     find_matches U [(lit "departure_time", JStr (lit "2024-05-02 00:00"))]
       [ab12] [] = Ok [ab12])
  /\ (forall U,
        strptime U (departure_datetime ab12)
        = Some {| year := 2024; month := 5; day := 1;
                  hour := 10; minute := 0 |})
  /\ (forall U, strptime U (lit "2024-05-02 00:00") = Some may_2)
  /\ DateTime.geb
       {| year := 2024; month := 5; day := 1; hour := 10; minute := 0 |}
       may_2 = false.
Proof.
  split; [| split; [| split]]; try (intros U); vm_compute; reflexivity.
Qed.

(** C2 fails on the code.  With one record in the database, a batch whose
    first predicate set has a bound that is no timestamp ends in the
    [ValueError] of [strptime]: no response is written, although the second
    predicate set, run alone, has its response. *)
Theorem bad_timestamp_ends_batch :
  (forall U,
     run_queries U [ab12]
       [ [(lit "departure_datetime", JStr (lit "tomorrow"))]; [] ]
     = Raise ValueError)
  /\ (forall U,
        run_queries U [ab12] [ [] ]
        = Ok [ {| resp_query := []; resp_matches := [ab12] |} ])
  /\ (forall U,
        parse_and_query U [ab12_line]
          [ [(lit "departure_datetime", JStr (lit "tomorrow"))]; [] ]
        = Raise ValueError).
Proof.
  split; [| split]; intros U; vm_compute; reflexivity.
Qed.

(** C7 fails on the code.  The validator accepts a line whose price is
    [nan]; the predicate [price <= 100] then matches its record, whose price
    is not less than or equal to 100. *)
Theorem price_query_keeps_nan :
  (forall U,
     parse_and_query U [nan_line] [ [(lit "price", JInt 100)] ]
     = Ok [ {| resp_query := [(lit "price", JInt 100)];
               resp_matches := [nan_record] |} ])
  /\ PyFloat.le (price nan_record) (Int 100) = false.
Proof.
  split; [intros U |]; vm_compute; reflexivity.
Qed.


(* ===================================================================== *)
(** * Further properties of the validator *)
(* ===================================================================== *)

Import Lines.

Section OutputFacts.
Variable U : ucd.

Lemma outcome_of_ok (n : nat) (raw : text) :
  process_line U n raw = Ok (outcome_of U n raw).
Proof.
  unfold outcome_of. destruct (process_line_total U n raw) as [o ->].
  reflexivity.
Qed.

Lemma parse_lines_outcomes (lines : list text) :
  forall n valid errors,
    parse_lines U n lines valid errors
    = Ok (valid ++ omap record_of (line_outcomes U n lines),
          errors ++ omap entry_of (line_outcomes U n lines)).
Proof.
  induction lines as [|raw rest IH]; intros n valid errors; simpl.
  - now rewrite !app_nil_r.
  - rewrite (outcome_of_ok n raw). simpl.
    destruct (outcome_of U n raw) as [| e | e | f]; simpl; rewrite IH.
    + reflexivity.
    + now rewrite <- app_assoc.
    + now rewrite <- app_assoc.
    + now rewrite <- app_assoc.
Qed.

Lemma line_outcomes_lookup (lines : list text) :
  forall n i raw,
    lines !! i = Some raw ->
    line_outcomes U n lines !! i = Some (outcome_of U (n + i) raw).
Proof.
  induction lines as [|r rest IH]; intros n i raw H; [discriminate |].
  destruct i as [|i]; simpl in *.
  - injection H as ->. now rewrite Nat.add_0_r.
  - rewrite (IH (S n) i raw H). f_equal. f_equal. lia.
Qed.

Lemma line_outcomes_length (lines : list text) :
  forall n, length (line_outcomes U n lines) = length lines.
Proof. induction lines; intros n; simpl; [reflexivity | now rewrite IHlines]. Qed.
End OutputFacts.

(** X1.  [parse_csv_file] returns the records of the accepted lines, in the
    order of the lines, and the entries of the comment lines and of the
    rejected lines, in the order of the lines; the line at position [i],
    counted from zero, is processed with the line number [i + 1]. *)
Theorem parse_csv_file_in_file_order (U : ucd) (lines : list text) :
  parse_csv_file U lines
  = Ok (omap record_of (line_outcomes U 1 lines),
        omap entry_of (line_outcomes U 1 lines))
  /\ length (line_outcomes U 1 lines) = length lines
  /\ (forall i raw,
        lines !! i = Some raw ->
        exists o, line_outcomes U 1 lines !! i = Some o
                  /\ process_line U (S i) raw = Ok o).
Proof.
  split; [| split].
  - unfold parse_csv_file. now rewrite parse_lines_outcomes.
  - apply line_outcomes_length.
  - intros i raw H. exists (outcome_of U (S i) raw). split.
    + now rewrite (line_outcomes_lookup U lines 1 i raw H).
    + apply outcome_of_ok.
Qed.

(** X2.  Every record that [parse_csv_file] returns has the invariants the
    checks establish: a flight id of 2 to 8 alphanumeric characters, two
    airport codes that pass [check_airport], two timestamps in the format
    with the arrival strictly later than the departure, and a price for
    which [price <= 0] is false. *)
Theorem returned_records_invariants (U : ucd) (lines : list text)
    (valid : list flight) (errors : list text) :
  parse_csv_file U lines = Ok (valid, errors) ->
  Forall (record_invariants U) valid.
Proof.
  intros H. apply Forall_forall. intros fl Hin.
  apply list_elem_of_In in Hin.
  destruct (parse_lines_valid U lines _ _ _ _ _ H fl Hin)
    as [[] | (k & r & _ & Ha)].
  apply accepted_inv in Ha as (pr & p & _ & _ & Hr & Hp & Hprice).
  destruct fl; simpl in *; subst.
  eapply checks_establish_invariants; eauto.
Qed.

Lemma returned_records_invariants_witness :
  Forall (record_invariants ascii_only) [ab12].
Proof.
  apply (returned_records_invariants ascii_only small_file [ab12]
           (omap entry_of (line_outcomes ascii_only 1 small_file))).
  vm_compute. reflexivity.
Defined.

Section FieldFacts.
Variable U : ucd.

Lemma split_nonempty (sep : char) (s : text) : split sep s <> [].
Proof.
  destruct s as [|c s]; simpl; [discriminate |].
  destruct (c =? sep); [discriminate |].
  destruct (split sep s); discriminate.
Qed.

(** A text without separator at the start of a line is the start of its
    first field. *)
Lemma split_head_prefix (sep : char) (p : text) :
  Forall (fun c => c <> sep) p ->
  forall s, startswith s p = true ->
  exists f fs, split sep s = f :: fs /\ startswith f p = true.
Proof.
  induction 1 as [|a p Ha _ IH]; intros s Hs.
  - destruct (split sep s) as [|f fs] eqn:E; [now apply split_nonempty in E |].
    exists f, fs. split; [reflexivity |]. now destruct f.
  - destruct s as [|b s]; [discriminate |]. simpl in Hs.
    apply andb_true_iff in Hs as [Hab Hs]. apply N.eqb_eq in Hab. subst b.
    destruct (IH s Hs) as (f & fs & Hsplit & Hf).
    exists (a :: f), fs. simpl.
    destruct (N.eqb_spec a sep) as [-> | _]; [contradiction |].
    rewrite Hsplit. split; [reflexivity |]. simpl.
    now rewrite N.eqb_refl.
Qed.

Lemma startswith_length (s p : text) :
  startswith s p = true -> (length p <= length s)%nat.
Proof.
  revert s. induction p as [|a p IH]; intros s H; simpl; [lia |].
  destruct s as [|b s]; [discriminate |]. simpl in *.
  apply andb_true_iff in H as [_ H]. apply IH in H. lia.
Qed.

(** The number of fields is the number of separators plus one. *)
Lemma split_length (sep : char) (s : text) :
  length (split sep s) = S (length (List.filter (N.eqb sep) s)).
Proof.
  induction s as [|c s IH]; simpl; [reflexivity |].
  rewrite (N.eqb_sym sep c).
  destruct (c =? sep); simpl; [now rewrite IH |].
  destruct (split sep s) as [|f fs] eqn:E; [now apply split_nonempty in E |].
  simpl in *. exact IH.
Qed.

(** A line that the guards of the loop skip fails the check on the flight
    id, or has no six fields. *)
Lemma guarded_line_fails (raw fid o d dep arr pr : text) :
  split (ch ",") (strip raw) = [fid; o; d; dep; arr; pr] ->
  is_data raw = false ->
  flight_id_ok U fid = false.
Proof.
  intros Hs Hd. unfold is_data in Hd.
  destruct (is_blank raw) eqn:Hb.
  { unfold is_blank in Hb. apply text_eqb_eq in Hb. rewrite Hb in Hs.
    discriminate. }
  destruct (is_comment raw) eqn:Hc.
  { unfold is_comment in Hc.
    destruct (split_head_prefix (ch ",") (lit "#")
                ltac:(repeat constructor; discriminate) _ Hc)
      as (f & fs & Hf & Hp).
    rewrite Hs in Hf. injection Hf as <- _.
    destruct fid as [|c fid]; [discriminate |].
    change (lit "#") with [35] in Hp. cbn [startswith] in Hp.
    apply andb_true_iff in Hp as [Hc35 _]. apply N.eqb_eq in Hc35. subst c.
    unfold flight_id_ok, isalnum. cbn [forallb].
    change (is_alnum U 35) with false.
    now rewrite andb_false_r. }
  destruct (is_header raw) eqn:Hh; [| discriminate].
  unfold is_header in Hh.
  destruct (split_head_prefix (ch ",") (lit "flight_id")
              ltac:(repeat constructor; discriminate) _ Hh)
    as (f & fs & Hf & Hp).
  rewrite Hs in Hf. injection Hf as <- _.
  apply startswith_length in Hp. change (length (lit "flight_id")) with 9%nat in Hp.
  unfold flight_id_ok, len.
  destruct (Z.leb_spec (Z.of_nat (length fid)) 8) as [H8 | H8]; [lia |].
  now rewrite andb_false_r.
Qed.
End FieldFacts.

(** X3.  The guards for blank, comment and header lines never hide a
    record: a line whose six fields pass every check is a data line, and the
    loop accepts it. *)
Theorem passing_line_never_skipped (U : ucd) (raw fid o d dep arr pr : text) :
  split (ch ",") (strip raw) = [fid; o; d; dep; arr; pr] ->
  validate U fid o d dep arr pr = [] ->
  is_data raw = true
  /\ exists fl, forall n, process_line U n raw = Ok (Accepted fl).
Proof.
  intros Hs Hv. rewrite validate_applicable in Hv.
  pose proof (proj1 (applicable_nil U fid o d dep arr pr) Hv)
    as (Hf & _ & _ & _ & _ & _ & _ & Hp).
  assert (Hd : is_data raw = true).
  { destruct (is_data raw) eqn:Hd; [reflexivity |].
    rewrite (guarded_line_fails U raw fid o d dep arr pr Hs Hd) in Hf.
    discriminate. }
  split; [exact Hd |].
  unfold price_unreadable in Hp.
  destruct (float_of_text U pr) as [p|] eqn:Hpr; [| discriminate].
  eexists. intros n.
  rewrite (process_line_six U n raw fid o d dep arr pr Hd Hs), Hv, Hpr.
  reflexivity.
Qed.

Lemma passing_line_never_skipped_witness :
  is_data ab12_line = true
  /\ exists fl, forall n, process_line ascii_only n ab12_line = Ok (Accepted fl).
Proof.
  apply (passing_line_never_skipped ascii_only ab12_line
           (lit "AB12") (lit "JFK") (lit "LAX")
           (lit "2024-05-01 10:00") (lit "2024-05-01 14:00") (lit "199.99"));
    vm_compute; reflexivity.
Defined.

(** X4.  A data line is checked field by field exactly when it has five
    commas: with any other number of commas the loop appends the one entry
    [missing required fields] and looks at no field; with five commas the
    line has six fields, and it is accepted when no check fails and rejected
    with the reasons of the checks otherwise. *)
Theorem field_count_by_commas (U : ucd) (n : nat) (raw : text) :
  is_data raw = true ->
  (commas (strip raw) <> 5%nat ->
   process_line U n raw
   = Ok (Rejected (entry n (strip raw) (lit "missing required fields"))))
  /\ (commas (strip raw) = 5%nat ->
      exists fid o d dep arr pr,
        split (ch ",") (strip raw) = [fid; o; d; dep; arr; pr]
        /\ (validate U fid o d dep arr pr = [] ->
            exists fl, process_line U n raw = Ok (Accepted fl))
        /\ (validate U fid o d dep arr pr <> [] ->
            process_line U n raw
            = Ok (Rejected (entry n (strip raw)
                              (join (lit ", ")
                                    (validate U fid o d dep arr pr)))))).
Proof.
  intros Hd. pose proof (split_length (ch ",") (strip raw)) as Hlen.
  fold (commas (strip raw)) in Hlen. split; intros Hc.
  - apply process_line_other; [exact Hd | lia].
  - destruct (split (ch ",") (strip raw))
      as [|fid [|o [|d [|dep [|arr [|pr [|g l]]]]]]] eqn:Hs;
      simpl in Hlen; try lia.
    exists fid, o, d, dep, arr, pr. split; [reflexivity |].
    rewrite (process_line_six U n raw fid o d dep arr pr Hd Hs).
    rewrite validate_applicable. split.
    + intros Hr. rewrite Hr.
      apply applicable_nil in Hr as (_ & _ & _ & _ & _ & _ & _ & Hp).
      unfold price_unreadable in Hp.
      destruct (float_of_text U pr); [simpl; eauto | discriminate].
    + intros Hr.
      destruct (applicable_reasons U fid o d dep arr pr); [contradiction |].
      reflexivity.
Qed.

Lemma field_count_by_commas_witness :
  process_line ascii_only 6 (lit "AB12,JFK")
  = Ok (Rejected (entry 6 (lit "AB12,JFK") (lit "missing required fields"))).
Proof.
  refine (proj1 (field_count_by_commas ascii_only 6 (lit "AB12,JFK") _) _).
  - vm_compute. reflexivity.
  - vm_compute. discriminate.
Defined.

Section ReasonListFacts.
Variable U : ucd.

(** A reason of the list of checks is collected exactly when its flag is
    set. *)
Lemma reason_flag (fid o d dep arr pr : text) (b : bool) (r : text) :
  In (b, r) (checks U fid o d dep arr pr) ->
  (In r (validate U fid o d dep arr pr) <-> b = true).
Proof.
  intros Hin. rewrite validate_applicable. unfold applicable_reasons.
  apply failing_reason; [apply check_order_nodup | exact Hin].
Qed.

Lemma validate_sublist (fid o d dep arr pr : text) :
  validate U fid o d dep arr pr `sublist_of` check_order.
Proof.
  rewrite validate_applicable. unfold applicable_reasons.
  rewrite <- (check_order_checks U fid o d dep arr pr).
  apply failing_sublist.
Qed.
End ReasonListFacts.

(** X5.  The reasons collected for a line of six fields are distinct and at
    most seven: the two reasons for the price never come together, and the
    reason for the order of the timestamps never comes with a reason for a
    timestamp that is not in the format. *)
Theorem reasons_distinct_and_bounded (U : ucd) (fid o d dep arr pr : text) :
  NoDup (validate U fid o d dep arr pr)
  /\ (length (validate U fid o d dep arr pr) <= 7)%nat
  /\ ~ (In (lit "negative price value") (validate U fid o d dep arr pr)
        /\ In (lit "invalid price") (validate U fid o d dep arr pr))
  /\ (In (lit "arrival before departure") (validate U fid o d dep arr pr) ->
      ~ In (lit "invalid departure datetime") (validate U fid o d dep arr pr)
      /\ ~ In (lit "invalid arrival datetime")
             (validate U fid o d dep arr pr)).
Proof.
  split; [| split; [| split]].
  - eapply sublist_NoDup; [apply check_order_nodup | apply validate_sublist].
  - rewrite validate_applicable. unfold applicable_reasons, checks,
      price_not_positive, price_unreadable.
    destruct (float_of_text U pr) as [p|];
      [destruct (PyFloat.le (Float p) (Int 0)) |];
      destruct (negb (flight_id_ok U fid)), (negb (airport_ok U o)),
        (negb (airport_ok U d)), (negb (parses U dep)), (negb (parses U arr)),
        (arrival_not_later U dep arr); simpl; lia.
  - intros [Hneg Hinv].
    apply (reason_flag U fid o d dep arr pr (price_not_positive U pr)) in Hneg;
      [| simpl; tauto].
    apply (reason_flag U fid o d dep arr pr (price_unreadable U pr)) in Hinv;
      [| simpl; tauto].
    unfold price_not_positive, price_unreadable in *.
    destruct (float_of_text U pr); discriminate.
  - intros Hord.
    apply (reason_flag U fid o d dep arr pr (arrival_not_later U dep arr))
      in Hord; [| simpl; tauto].
    unfold arrival_not_later in Hord.
    destruct (strptime U dep) as [dep_dt|] eqn:Hd; [| discriminate].
    destruct (strptime U arr) as [arr_dt|] eqn:Ha; [| discriminate].
    split; intros H.
    + apply (reason_flag U fid o d dep arr pr (negb (parses U dep))) in H;
        [| simpl; tauto].
      unfold parses in H. rewrite Hd in H. discriminate.
    + apply (reason_flag U fid o d dep arr pr (negb (parses U arr))) in H;
        [| simpl; tauto].
      unfold parses in H. rewrite Ha in H. discriminate.
Qed.

(** X6.  The reason [arrival before departure] is collected exactly when
    both timestamps are in the format and the arrival is not after the
    departure on the line of time; an arrival at the minute of the
    departure is one such case. *)
Theorem arrival_before_departure_iff (U : ucd) (fid o d dep arr pr : text) :
  In (lit "arrival before departure") (validate U fid o d dep arr pr)
  <-> exists dep_dt arr_dt,
        strptime U dep = Some dep_dt /\ strptime U arr = Some arr_dt
        /\ (timeline arr_dt <= timeline dep_dt)%Z.
Proof.
  rewrite (reason_flag U fid o d dep arr pr (arrival_not_later U dep arr))
    by (simpl; tauto).
  unfold arrival_not_later.
  destruct (strptime U dep) as [dep_dt|] eqn:Hd.
  2:{ split; [discriminate | intros (? & ? & ? & _); discriminate]. }
  destruct (strptime U arr) as [arr_dt|] eqn:Ha.
  2:{ split; [discriminate | intros (? & ? & _ & ? & _); discriminate]. }
  unfold DateTime.leb.
  rewrite (compare_timeline arr_dt dep_dt (strptime_valid U _ _ Ha)
             (strptime_valid U _ _ Hd)).
  split.
  - intros H. exists dep_dt, arr_dt. repeat split.
    destruct (Z.compare_spec (timeline arr_dt) (timeline dep_dt));
      [lia | lia | discriminate].
  - intros (x & y & [= <-] & [= <-] & Hle).
    destruct (Z.compare_spec (timeline arr_dt) (timeline dep_dt));
      [reflexivity | reflexivity | lia].
Qed.

Section StripFacts.

Lemma lstrip_blank (ws s : text) :
  blank ws = true -> lstrip (ws ++ s) = lstrip s.
Proof.
  unfold blank. induction ws as [|c ws IH]; simpl; [reflexivity |].
  intros H. apply andb_true_iff in H as [-> H]. now apply IH.
Qed.

(** Stripping on the left stops at the first character that is no
    whitespace. *)
Lemma lstrip_app (a b : text) :
  lstrip (a ++ b) = match lstrip a with
                    | [] => lstrip b
                    | t => t ++ b
                    end.
Proof.
  induction a as [|c a IH]; simpl; [now destruct (lstrip b) |].
  destruct (is_space c); [exact IH | reflexivity].
Qed.

Lemma lstrip_nil_blank (s : text) : lstrip s = [] -> blank s = true.
Proof.
  unfold blank. induction s as [|c s IH]; simpl; [reflexivity |].
  destruct (is_space c); [exact IH | discriminate].
Qed.

Lemma blank_rev (s : text) : blank (rev s) = blank s.
Proof.
  unfold blank. induction s as [|c s IH]; simpl; [reflexivity |].
  rewrite forallb_app. simpl. rewrite andb_true_r, andb_comm.
  f_equal. exact IH.
Qed.

Lemma rstrip_blank (s ws : text) :
  blank ws = true -> rstrip (s ++ ws) = rstrip s.
Proof.
  intros H. unfold rstrip. rewrite rev_app_distr, lstrip_blank; [reflexivity |].
  now rewrite blank_rev.
Qed.

Lemma rstrip_all_blank (s : text) : blank s = true -> rstrip s = [].
Proof.
  intros H. unfold rstrip.
  rewrite <- (app_nil_r (rev s)), lstrip_blank; [reflexivity |].
  now rewrite blank_rev.
Qed.

(** Whitespace around a text does not change what [strip] returns. *)
Lemma strip_padded (ws1 s ws2 : text) :
  blank ws1 = true -> blank ws2 = true ->
  strip (ws1 ++ s ++ ws2) = strip s.
Proof.
  intros H1 H2. unfold strip. rewrite (lstrip_blank ws1 _ H1), lstrip_app.
  destruct (lstrip s) as [|c t] eqn:E.
  - rewrite (rstrip_all_blank (lstrip ws2)); [reflexivity |].
    clear E. unfold blank in *. induction ws2 as [|x ws2 IH]; simpl in *;
      [reflexivity |].
    apply andb_true_iff in H2 as [Hx H2]. rewrite Hx. now apply IH.
  - now apply rstrip_blank.
Qed.
End StripFacts.

(** X7.  Whitespace before and after a line, the line terminator included,
    changes nothing: the loop body gives the padded line the outcome of the
    line, with the same entry. *)
Theorem surrounding_whitespace_ignored (U : ucd) (n : nat)
    (ws1 raw ws2 : text) :
  blank ws1 = true -> blank ws2 = true ->
  process_line U n (ws1 ++ raw ++ ws2) = process_line U n raw.
Proof.
  intros H1 H2. unfold process_line.
  now rewrite (strip_padded ws1 raw ws2 H1 H2).
Qed.

Lemma surrounding_whitespace_ignored_witness :
  process_line ascii_only 1 (lit "  " ++ ab12_line ++ [13; 10])
  = Ok (Accepted ab12).
Proof.
  rewrite (surrounding_whitespace_ignored ascii_only 1 (lit "  ") ab12_line
             [13; 10] eq_refl eq_refl).
  vm_compute. reflexivity.
Defined.

(* ===================================================================== *)
(** * Further properties of the query loop *)
(* ===================================================================== *)

Import Keys.

Section ItemFacts.
Variable U : ucd.

Lemma check_item_unrecognized (f : flight) (ok : bool) (key : text)
    (value : json) :
  recognized key = false -> check_item U f ok key value = Ok ok.
Proof.
  unfold recognized, check_item. intros H.
  repeat (apply orb_false_iff in H as [H ?]).
  repeat match goal with Hx : text_eqb _ _ = false |- _ => rewrite Hx; clear Hx end.
  reflexivity.
Qed.

Lemma check_items_recognized (f : flight) (q : query) :
  forall ok, check_items U f ok q = check_items U f ok (recognized_items q).
Proof.
  induction q as [|[k v] q IH]; intros ok; simpl; [reflexivity |].
  destruct (recognized k) eqn:Hk; simpl.
  - destruct (check_item U f ok k v); simpl; [apply IH | reflexivity].
  - rewrite (check_item_unrecognized f ok k v Hk). simpl. apply IH.
Qed.

Lemma find_matches_recognized (q : query) (db : list flight) :
  forall acc,
    find_matches U q db acc = find_matches U (recognized_items q) db acc.
Proof.
  induction db as [|f db IH]; intros acc; simpl; [reflexivity |].
  rewrite <- check_items_recognized.
  destruct (check_items U f true q) as [b|]; simpl; [apply IH | reflexivity].
Qed.

Lemma find_matches_nil (db : list flight) :
  forall acc, find_matches U [] db acc = Ok (acc ++ db).
Proof.
  induction db as [|f db IH]; intros acc; simpl.
  - now rewrite app_nil_r.
  - rewrite IH, <- app_assoc. reflexivity.
Qed.

(** The state of [ok] at the start only adds a conjunct. *)
Lemma check_items_ok (f : flight) (q : query) :
  forall ok,
    check_items U f ok q =
    match check_items U f true q with
    | Ok b => Ok (ok && b)
    | Raise e => Raise e
    end.
Proof.
  induction q as [|[k v] q IH]; intros ok; simpl.
  - now rewrite andb_true_r.
  - rewrite check_item_ok.
    destruct (check_item U f true k v) as [b|e]; simpl; [| reflexivity].
    rewrite (IH (ok && b)), (IH b).
    destruct (check_items U f true q) as [b'|]; [| reflexivity].
    now rewrite andb_assoc.
Qed.

Lemma check_items_app (f : flight) (q1 q2 : query) :
  forall ok,
    check_items U f ok (q1 ++ q2) =
    ok1 ← check_items U f ok q1; check_items U f ok1 q2.
Proof.
  induction q1 as [|[k v] q1 IH]; intros ok; simpl; [reflexivity |].
  destruct (check_item U f ok k v) as [b|e]; simpl; [apply IH | reflexivity].
Qed.

(** The loop over the flights returns exactly when the loop over the items
    returns for every flight. *)
Lemma find_matches_ok (q : query) (db : list flight) :
  forall acc,
    Forall (fun f => exists b, check_items U f true q = Ok b) db ->
    find_matches U q db acc = Ok (acc ++ List.filter (satisfies U q) db).
Proof.
  induction db as [|f db IH]; intros acc H; simpl.
  - now rewrite app_nil_r.
  - apply Forall_cons in H as [[b Hb] H]. unfold satisfies at 1.
    rewrite Hb. simpl. rewrite (IH _ H).
    destruct b; [now rewrite <- app_assoc | reflexivity].
Qed.

Lemma find_matches_ok_inv (q : query) (db : list flight) :
  forall acc ms,
    find_matches U q db acc = Ok ms ->
    Forall (fun f => exists b, check_items U f true q = Ok b) db.
Proof.
  induction db as [|f db IH]; intros acc ms H; [constructor |].
  simpl in H. destruct (check_items U f true q) as [b|e] eqn:Hb;
    simpl in H; [| discriminate].
  constructor; [eauto | eapply IH; eauto].
Qed.

Lemma satisfies_app (f : flight) (q1 q2 : query) (b1 b2 : bool) :
  check_items U f true q1 = Ok b1 ->
  check_items U f true q2 = Ok b2 ->
  check_items U f true (q1 ++ q2) = Ok (b1 && b2).
Proof.
  intros H1 H2. rewrite check_items_app, H1. simpl.
  now rewrite check_items_ok, H2.
Qed.

Lemma satisfies_both (f : flight) (q1 q2 : query) (b1 b2 : bool) :
  check_items U f true q1 = Ok b1 ->
  check_items U f true q2 = Ok b2 ->
  satisfies U (q1 ++ q2) f = satisfies U q1 f && satisfies U q2 f.
Proof.
  intros H1 H2. unfold satisfies.
  rewrite (satisfies_app f q1 q2 b1 b2 H1 H2), H1, H2.
  now destruct b1, b2.
Qed.

(** An item whose value has not the type of its comparison raises, whatever
    the flight. *)
Lemma ill_typed_item_raises (f : flight) (ok : bool) (key : text)
    (value : json) :
  item_typed U (key, value) = false ->
  exists e, check_item U f ok key value = Raise e.
Proof.
  unfold item_typed, check_item.
  destruct (text_eqb key (lit "flight_id") || text_eqb key (lit "origin")
            || text_eqb key (lit "destination")); [discriminate |].
  destruct (text_eqb key (lit "price")).
  { destruct value; try discriminate; intros _; simpl; eauto. }
  destruct (text_eqb key (lit "departure_datetime")); cbn [orb].
  { intros H. destruct (to_dt U (JStr (departure_datetime f))) as [a|e];
      cbn [mbind result_bind]; [| eauto].
    destruct value as [| | | |s| |]; cbn [to_dt mbind result_bind]; eauto.
    unfold parses in H. destruct (strptime U s); [discriminate |].
    simpl. eauto. }
  destruct (text_eqb key (lit "arrival_datetime")); cbn [orb];
    [| discriminate].
  intros H. destruct (to_dt U (JStr (arrival_datetime f))) as [a|e];
    cbn [mbind result_bind]; [| eauto].
  destruct value as [| | | |s| |]; cbn [to_dt mbind result_bind]; eauto.
  unfold parses in H. destruct (strptime U s); [discriminate |].
  simpl. eauto.
Qed.

Lemma ill_typed_items_raise (f : flight) (q : query) :
  Exists (fun item => item_typed U item = false) q ->
  forall ok, exists e, check_items U f ok q = Raise e.
Proof.
  induction q as [|[k v] q IH]; intros H ok; [inversion H |].
  simpl. destruct (check_item U f ok k v) as [b|e] eqn:Hc; simpl; [| eauto].
  inversion H as [? ? Hbad | ? ? Hrest]; subst.
  - destruct (ill_typed_item_raises f ok k v Hbad) as [e He]. congruence.
  - now apply IH.
Qed.

Lemma forallb_false_Exists {A} (p : A -> bool) (l : list A) :
  forallb p l = false -> Exists (fun x => p x = false) l.
Proof.
  induction l as [|x l IH]; simpl; [discriminate |].
  destruct (p x) eqn:Hx; simpl; intros H.
  - constructor 2. now apply IH.
  - now constructor 1.
Qed.

Lemma answer_empty (qs : list query) :
  forall acc, answer U [] qs acc = Ok (acc ++ map no_match qs).
Proof.
  induction qs as [|q qs IH]; intros acc; simpl.
  - now rewrite app_nil_r.
  - rewrite IH, <- app_assoc. reflexivity.
Qed.
End ItemFacts.

(** X8.  An item whose key is none of the six keys of the loop is ignored:
    a predicate set gives the result, matches or exception, of its items
    with a recognized key.  A predicate set with no such item, the empty one
    for one, matches every record of the database. *)
Theorem unrecognized_keys_ignored (U : ucd) (q : query) (db : list flight) :
  find_matches U q db [] = find_matches U (recognized_items q) db []
  /\ (recognized_items q = [] -> find_matches U q db [] = Ok db).
Proof.
  split; [apply find_matches_recognized |].
  intros H. rewrite find_matches_recognized, H. apply find_matches_nil.
Qed.

(** X9.  The items of a predicate set are a conjunction.  When two
    predicate sets can be answered on a database, their union can, and its
    matches are the matches of the first that also satisfy the second: the
    records that both match. *)
Theorem predicate_sets_conjoin (U : ucd) (q1 q2 : query) (db : list flight)
    (m1 m2 : list flight) :
  find_matches U q1 db [] = Ok m1 ->
  find_matches U q2 db [] = Ok m2 ->
  find_matches U (q1 ++ q2) db [] = Ok (List.filter (satisfies U q2) m1)
  /\ (forall f, In f (List.filter (satisfies U q2) m1)
                <-> In f m1 /\ In f m2).
Proof.
  intros H1 H2.
  pose proof (find_matches_ok_inv U q1 db _ _ H1) as Hall1.
  pose proof (find_matches_ok_inv U q2 db _ _ H2) as Hall2.
  apply find_matches_filter in H1, H2. simpl in H1, H2. subst m1 m2.
  split.
  - rewrite find_matches_ok.
    + cbn [app]. f_equal. clear -Hall1 Hall2.
      induction db as [|f db IH]; [reflexivity |].
      apply Forall_cons in Hall1 as [[b1 Hb1] Hall1].
      apply Forall_cons in Hall2 as [[b2 Hb2] Hall2].
      cbn [List.filter].
      rewrite (satisfies_both U f q1 q2 b1 b2 Hb1 Hb2).
      destruct (satisfies U q1 f); cbn [andb List.filter].
      * destruct (satisfies U q2 f); now rewrite (IH Hall1 Hall2).
      * exact (IH Hall1 Hall2).
    + clear -Hall1 Hall2.
      induction db as [|f db IH]; [constructor |].
      apply Forall_cons in Hall1 as [[b1 Hb1] Hall1].
      apply Forall_cons in Hall2 as [[b2 Hb2] Hall2].
      constructor; [| now apply IH].
      exists (b1 && b2). now apply satisfies_app.
  - intros f. rewrite !filter_In. tauto.
Qed.

Lemma predicate_sets_conjoin_witness :
  find_matches ascii_only
    ([(lit "origin", JStr (lit "JFK"))] ++ [(lit "price", JInt 200)])
    [ab12; inf_record] []
  = Ok (List.filter (satisfies ascii_only [(lit "price", JInt 200)])
          [ab12; inf_record]).
Proof.
  refine (proj1 (predicate_sets_conjoin ascii_only
                   [(lit "origin", JStr (lit "JFK"))]
                   [(lit "price", JInt 200)] [ab12; inf_record]
                   [ab12; inf_record] [ab12] _ _));
    vm_compute; reflexivity.
Defined.

(** X10.  Asking again changes nothing: the matches of a predicate set,
    taken as the database, are all matched by the same predicate set. *)
Theorem requery_gives_same_matches (U : ucd) (q : query) (db ms : list flight) :
  find_matches U q db [] = Ok ms ->
  find_matches U q ms [] = Ok ms.
Proof.
  intros H. pose proof (find_matches_ok_inv U q db _ _ H) as Hall.
  apply find_matches_filter in H. simpl in H. subst ms.
  rewrite find_matches_ok.
  - simpl. f_equal. clear Hall. induction db as [|f db IH]; [reflexivity |].
    simpl. destruct (satisfies U q f) eqn:Hs; [| exact IH].
    simpl. now rewrite Hs, IH.
  - apply Forall_forall. intros f Hf. apply list_elem_of_In in Hf.
    apply filter_In in Hf as [Hf _].
    rewrite Forall_forall in Hall. apply Hall. now apply list_elem_of_In.
Qed.

Lemma requery_gives_same_matches_witness :
  find_matches ascii_only [(lit "price", JInt 200)] [ab12; nan_record] []
  = Ok [ab12; nan_record].
Proof.
  apply (requery_gives_same_matches ascii_only [(lit "price", JInt 200)]
           [ab12; inf_record; nan_record]).
  vm_compute. reflexivity.
Defined.

(** X11.  On an empty database nothing is compared: every batch is
    answered, one response without match per predicate set, even when the
    value of a predicate has the wrong type or is no timestamp. *)
Theorem empty_database_answers_all (U : ucd) (qs : list query) :
  run_queries U [] qs = Ok (map no_match qs).
Proof. unfold run_queries. now rewrite answer_empty. Qed.

(** On records whose timestamps are in the format, and at least one of
    them, a predicate set is answered exactly when every item has a value of
    the type of its comparison. *)
Lemma find_matches_answered (U : ucd) (q : query) (db : list flight) :
  db <> [] ->
  Forall (fun f => flight_typed U f = true) db ->
  ((exists ms, find_matches U q db [] = Ok ms)
   <-> Forall (fun item => item_typed U item = true) q).
Proof.
  intros Hne Hdb. split.
  - intros [ms Hms].
    destruct (forallb (item_typed U) q) eqn:Hq.
    { apply Forall_forall. intros item Hin.
      rewrite forallb_forall in Hq. apply Hq. now apply list_elem_of_In. }
    apply forallb_false_Exists in Hq.
    destruct db as [|f db]; [contradiction |]. simpl in Hms.
    destruct (ill_typed_items_raise U f q Hq true) as [e He].
    rewrite He in Hms. discriminate.
  - intros Hq. now apply find_matches_total.
Qed.

(** X13.  An exception in one predicate set ends the loop over the batch
    with that exception: no response is returned, not even for the
    predicate sets answered before it. *)
Theorem raising_query_ends_batch (U : ucd) (db : list flight)
    (qs1 qs2 : list query) (q : query) (e : exn) :
  Forall (fun q' => exists ms, find_matches U q' db [] = Ok ms) qs1 ->
  find_matches U q db [] = Raise e ->
  run_queries U db (qs1 ++ q :: qs2) = Raise e.
Proof. intros H1 H2. unfold run_queries. now apply answer_raises. Qed.

Lemma raising_query_ends_batch_witness :
  run_queries ascii_only [ab12]
    ([ [] ] ++ [(lit "price", JNull)] :: [ [] ]) = Raise TypeError.
Proof.
  apply (raising_query_ends_batch ascii_only [ab12] [ [] ] [ [] ]
           [(lit "price", JNull)] TypeError).
  - repeat constructor. eexists. vm_compute. reflexivity.
  - vm_compute. reflexivity.
Defined.

Section KeyFacts.
Variable U : ucd.

Lemma satisfies_one (f : flight) (key : text) (value : json) (b : bool) :
  check_item U f true key value = Ok b ->
  satisfies U [(key, value)] f = b.
Proof.
  intros H. unfold satisfies. cbn [check_items]. rewrite H.
  cbn [mbind result_bind check_items]. now destruct b.
Qed.

Lemma str_ne_false (s : text) (value : json) :
  str_ne s value = false <-> value = JStr s.
Proof.
  destruct value; simpl; split; try discriminate.
  - intros H. apply negb_false_iff, text_eqb_eq in H. now subst.
  - intros [= ->]. apply negb_false_iff. now apply text_eqb_eq.
Qed.
End KeyFacts.

(** X14.  The upper bound on the arrival.  For a record whose arrival is in
    the format and a bound in the format, the item [arrival_datetime]
    leaves [ok] as it is exactly when the arrival is at or before the
    bound; a record matched by a predicate set with this item has its
    arrival at or before the bound, an arrival at the minute of the bound
    included. *)
Theorem arrival_upper_bound (U : ucd) (f : flight) (v : text)
    (tf tq : datetime) :
  strptime U (arrival_datetime f) = Some tf ->
  strptime U v = Some tq ->
  (satisfies U [(lit "arrival_datetime", JStr v)] f = true
   <-> (timeline tf <= timeline tq)%Z)
  /\ (forall q db ms,
        In (lit "arrival_datetime", JStr v) q ->
        find_matches U q db [] = Ok ms ->
        In f ms -> (timeline tf <= timeline tq)%Z).
Proof.
  intros Hf Hq.
  assert (Hitem : check_item U f true (lit "arrival_datetime") (JStr v)
                  = Ok (DateTime.leb tf tq)).
  { unfold check_item.
    change (text_eqb (lit "arrival_datetime") (lit "flight_id")
            || text_eqb (lit "arrival_datetime") (lit "origin")
            || text_eqb (lit "arrival_datetime") (lit "destination"))
      with false.
    change (text_eqb (lit "arrival_datetime") (lit "price")) with false.
    change (text_eqb (lit "arrival_datetime") (lit "departure_datetime"))
      with false.
    change (text_eqb (lit "arrival_datetime") (lit "arrival_datetime"))
      with true.
    cbv iota. unfold to_dt. rewrite Hf, Hq. simpl.
    rewrite gtb_leb. now destruct (DateTime.leb tf tq). }
  assert (Hle : DateTime.leb tf tq = true <-> (timeline tf <= timeline tq)%Z).
  { unfold DateTime.leb.
    rewrite (compare_timeline tf tq (strptime_valid U _ _ Hf)
               (strptime_valid U _ _ Hq)).
    destruct (Z.compare_spec (timeline tf) (timeline tq)); split;
      intros; try reflexivity; try discriminate; lia. }
  split.
  - rewrite (satisfies_one U f _ _ _ Hitem). exact Hle.
  - intros q db ms Hin Hm Hfm. apply Hle.
    apply find_matches_filter in Hm. simpl in Hm. subst ms.
    apply filter_In in Hfm as [_ Hs]. unfold satisfies in Hs.
    destruct (check_items U f true q) as [[]|] eqn:Hc; try discriminate.
    apply check_items_true in Hc as [_ Hall].
    specialize (Hall _ _ Hin). rewrite Hitem in Hall. now injection Hall.
Qed.

Lemma arrival_upper_bound_witness :
  satisfies ascii_only
    [(lit "arrival_datetime", JStr (lit "2024-05-01 14:00"))] ab12 = true
  <-> (timeline {| year := 2024; month := 5; day := 1;
                   hour := 14; minute := 0 |}
       <= timeline {| year := 2024; month := 5; day := 1;
                      hour := 14; minute := 0 |})%Z.
Proof.
  refine (proj1 (arrival_upper_bound ascii_only ab12
                   (lit "2024-05-01 14:00") _ _ _ _));
    vm_compute; reflexivity.
Defined.

(** X16.  Raising the bound of the price predicate loses no match: a
    record matched under a bound is matched under every bound that is
    greater or equal, whatever the prices in the database. *)
Theorem price_bound_only_widens (U : ucd) (db : list flight)
    (value' value : json) (v' v : number) (ms' ms : list flight) :
  as_number value' = Some v' -> as_number value = Some v ->
  PyFloat.le v' v = true ->
  find_matches U [(lit "price", value')] db [] = Ok ms' ->
  find_matches U [(lit "price", value)] db [] = Ok ms ->
  ms' `sublist_of` ms /\ forall f, In f ms' -> In f ms.
Proof.
  intros H' H Hle Hm' Hm. split.
  - apply find_matches_filter in Hm', Hm. simpl in Hm', Hm. subst ms' ms.
    induction db as [|f db IH]; [constructor |].
    cbn [List.filter].
    rewrite (price_satisfies U f value' v' H'), (price_satisfies U f value v H).
    destruct (PyFloat.gt (price f) v') eqn:Hg'; cbn [negb].
    + destruct (negb (PyFloat.gt (price f) v)); [now constructor | exact IH].
    + rewrite (price_bound_monotone (price f) v' v Hle Hg'). cbn [negb].
      now constructor.
  - now apply (price_matches_monotone U db value' value v' v ms' ms).
Qed.

Lemma price_bound_only_widens_witness :
  [nan_record] `sublist_of` [ab12; nan_record].
Proof.
  refine (proj1 (price_bound_only_widens ascii_only
                   [ab12; inf_record; nan_record]
                   (JInt 100) (JFloat (of_decimal false 2005 (-1)))
                   (Int 100) (Float (of_decimal false 2005 (-1)))
                   [nan_record] [ab12; nan_record] _ _ _ _ _));
    vm_compute; reflexivity.
Defined.

(** X17.  A record matched by the price predicate has a price less than or
    equal to the bound whenever its price is not a NaN and the bound is a
    number that is not a NaN. *)
Theorem price_match_within_bound (U : ucd) (db : list flight) (value : json)
    (v : number) (ms : list flight) (f : flight) :
  as_number value = Some v ->
  (exists y, PyFloat.value v = Some y) ->
  find_matches U [(lit "price", value)] db [] = Ok ms ->
  In f ms ->
  (exists x, PyFloat.value (price f) = Some x) ->
  PyFloat.le (price f) v = true.
Proof.
  intros H Hy Hm Hin Hx.
  now apply (price_matches_le U db value v ms H Hy Hm f Hin Hx).
Qed.

Lemma price_match_within_bound_witness :
  PyFloat.le (price ab12) (Int 200) = true.
Proof.
  apply (price_match_within_bound ascii_only [ab12; inf_record] (JInt 200)
           (Int 200) [ab12] ab12).
  - reflexivity.
  - eexists. reflexivity.
  - vm_compute. reflexivity.
  - now left.
  - eexists. reflexivity.
Defined.

(* ===================================================================== *)
(** * Properties of [main] *)
(* ===================================================================== *)

Import Json Main.

Section LoopFacts.
Variable U : ucd.

(** ** The loop on the records of the validator *)

Lemma subscript_exact (f : flight) (key : text) :
  text_eqb key (lit "flight_id") || text_eqb key (lit "origin")
  || text_eqb key (lit "destination") = true ->
  subscript (of_flight f) key = Ok (JStr (exact_field f key)).
Proof.
  intros H. apply orb_prop in H as [H | H]; [apply orb_prop in H as [H | H] |];
    apply text_eqb_eq in H; subst key; vm_compute; reflexivity.
Qed.

Lemma py_ne_str (s : text) (value : json) :
  py_ne (JStr s) value = str_ne s value.
Proof. now destruct value. Qed.

Lemma py_gt_number (p : number) (value : json) :
  py_gt (of_number p) value = num_gt p value.
Proof. now destruct p, value. Qed.

(** On a record of the validator, an iteration of the loop over the items
    is the iteration on the fields of the record. *)
Lemma check_pair_of_flight (f : flight) (ok : bool) (key : text)
    (value : json) :
  check_pair U (of_flight f) ok key value = check_item U f ok key value.
Proof.
  unfold check_pair, check_item.
  destruct (text_eqb key (lit "flight_id") || text_eqb key (lit "origin")
            || text_eqb key (lit "destination")) eqn:Hk.
  { rewrite (subscript_exact f key Hk). cbn [mbind result_bind].
    now rewrite py_ne_str. }
  destruct (text_eqb key (lit "price")).
  { change (subscript (of_flight f) (lit "price"))
      with (Ok (A := json) (of_number (price f))).
    cbn [mbind result_bind]. now rewrite py_gt_number. }
  destruct (text_eqb key (lit "departure_datetime")); [reflexivity |].
  destruct (text_eqb key (lit "arrival_datetime")); reflexivity.
Qed.

Lemma check_pairs_of_flight (f : flight) (items : query) :
  forall ok, check_pairs U (of_flight f) ok items = check_items U f ok items.
Proof.
  induction items as [|[key value] items IH]; intros ok; simpl;
    [reflexivity |].
  rewrite check_pair_of_flight.
  destruct (check_item U f ok key value); simpl; [apply IH | reflexivity].
Qed.

Lemma scan_flights (q : query) (db : list flight) :
  forall acc,
    scan U (JDict q) (map of_flight db) (map of_flight acc)
    = match find_matches U q db acc with
      | Ok ms => Ok (map of_flight ms)
      | Raise e => Raise e
      end.
Proof.
  induction db as [|f db IH]; intros acc; simpl; [reflexivity |].
  rewrite check_pairs_of_flight.
  destruct (check_items U f true q) as [[]|e]; simpl;
    [| apply IH | reflexivity].
  rewrite <- IH. now rewrite map_app.
Qed.

Lemma matches_of_database (q : query) (db : list flight) :
  matches_of U (JDict q) (database db)
  = match find_matches U q db [] with
    | Ok ms => Ok (map of_flight ms)
    | Raise e => Raise e
    end.
Proof. unfold matches_of, database. simpl. apply (scan_flights q db []). Qed.

Lemma replies_dicts (db : list flight) (qs : list query) :
  forall acc,
    replies U (database db) (map JDict qs) (map to_reply acc)
    = match Query.answer U db qs acc with
      | Ok rs => Ok (map to_reply rs)
      | Raise e => Raise e
      end.
Proof.
  induction qs as [|q qs IH]; intros acc; simpl; [reflexivity |].
  rewrite matches_of_database.
  destruct (find_matches U q db []) as [ms|e]; simpl; [| reflexivity].
  rewrite <- IH. now rewrite map_app.
Qed.

(** ** The loop on an empty database *)

End LoopFacts.


Section StageFacts.
Variable U : ucd.
Variable w : world.

Lemma parse_csv_file_returns (lines : list text) :
  exists r, parse_csv_file U lines = Ok r.
Proof.
  destruct (parse_lines_counts U lines 1 [] []) as (v & e & H & _).
  unfold parse_csv_file. rewrite H. eauto.
Qed.

(** A source is parsed, or it cannot be read; nothing is printed or
    written on the way. *)
Lemma parse_source_cases (path : text) (log : list effect) :
  (exists r, parsed U w path = Some r
             /\ parse_source U w path log = (log, inr r))
  \/ (read_lines w path = None
      /\ parse_source U w path log = (log, inl ReadError)).
Proof.
  unfold parse_source, parsed. destruct (read_lines w path) as [lines|].
  - left. destruct (parse_csv_file_returns lines) as [r ->]. eauto.
  - right. split; reflexivity.
Qed.



(** Records are appended to a database that is a list. *)
Lemma extend_both_list (l : list json) (errs : list text)
    (r : list flight * list text) (log : list effect) :
  extend_both (JList l, errs) r log
  = (log, inr (JList (l ++ map of_flight r.1), errs ++ r.2)).
Proof. reflexivity. Qed.



(** The loop stops at the first file that cannot be read. *)
Lemma parse_files_unreadable (d : text) (filenames : list text) :
  forall l errs log,
    Exists (fun path => read_lines w path = None)
           (map (path_join d) (csv_names filenames)) ->
    parse_files U w d filenames (JList l, errs) log = (log, inl ReadError).
Proof.
  induction filenames as [|f fs IH]; intros l errs log H; simpl in *;
    [inversion H |].
  destruct (endswith f (lit ".csv")); simpl in H; [| now apply IH].
  unfold mbind, M_bind.
  destruct (parse_source_cases (path_join d f) log)
    as [(r' & Hr & Hp) | (_ & Hp)]; rewrite Hp; [| reflexivity].
  rewrite extend_both_list.
  inversion H as [? ? Hnone | ? ? Hrest]; subst.
  - unfold parsed in Hr. rewrite Hnone in Hr. discriminate.
  - now apply IH.
Qed.



(** A write gives its effect, or leaves the file as it was, or leaves it
    incomplete; in the last two cases it raises. *)
Lemma write_file_cases (path : text) (e : effect) (log : list effect) :
  (write w path = Written /\ write_file w path e log = (log ++ [e], inr tt))
  \/ (write w path = Refused
      /\ write_file w path e log = (log, inl WriteError))
  \/ (write w path = Cut
      /\ write_file w path e log = (log ++ [Incomplete path], inl WriteError)).
Proof.
  unfold write_file.
  destruct (write w path); [left | right; left | right; right];
    split; reflexivity.
Qed.


(** The part for [-q] does nothing, or raises before it writes, or fails
    to write the response file, or writes the responses and prints
    where. *)
Lemma run_query_file_cases (a : args) (db : json) (log : list effect) :
  run_query_file U w a db log = (log, inr tt)
  \/ (exists e, e <> WriteError
                /\ run_query_file U w a db log = (log, inl e))
  \/ run_query_file U w a db log = (log, inl WriteError)
  \/ run_query_file U w a db log
     = (log ++ [Incomplete (response_file w)], inl WriteError)
  \/ (exists rs, run_query_file U w a db log
                 = (log ++ query_outputs w rs, inr tt)).
Proof.
  unfold run_query_file. destruct (given (opt_q a)); [| now left].
  destruct (read_json w (path_of (opt_q a))) as [queries|];
    [| right; left; now exists ReadError].
  unfold mbind, M_bind.
  destruct (answer_queries U db queries) as [rs|e]; cbn [lift];
    unfold mret, M_ret, raise; [| right; left; now exists (Uncaught e)].
  destruct (write_file_cases (response_file w)
              (WriteResponses (response_file w) rs) log)
    as [[_ ->] | [[_ ->] | [_ ->]]].
  - do 4 right. exists rs. unfold emit, query_outputs.
    now rewrite <- app_assoc.
  - right; right; now left.
  - right; right; right; now left.
Qed.


Lemma write_outputs_loaded (a : args) (db : json) (errs : list text)
    (log : list effect) :
  given (opt_j a) = true -> write_outputs w a db errs log = (log, inr tt).
Proof. intros H. unfold write_outputs. now rewrite H. Qed.


End StageFacts.

Section RunFacts.
Variable U : ucd.
Variable w : world.


(** The two parts that parse, when a source or the directory cannot be
    read. *)
Lemma parse_stage_unreadable (a : args) (log : list effect) :
  given (opt_j a) = false ->
  (sources w a = None
   \/ exists paths, sources w a = Some paths
                    /\ Exists (fun path => read_lines w path = None) paths) ->
  (st ← parse_single U w a (JList [], []); parse_folder U w a st) log
  = (log, inl ReadError).
Proof.
  intros Hj Hs. unfold sources in Hs.
  unfold mbind, M_bind, parse_single, parse_folder. rewrite Hj. simpl negb.
  rewrite !andb_true_r.
  destruct (given (opt_i a)) eqn:Hi.
  - unfold mbind, M_bind.
    destruct (parse_source_cases U w (path_of (opt_i a)) log)
      as [(r & Hr & ->) | (_ & ->)]; [| reflexivity].
    rewrite extend_both_list. destruct (given (opt_d a)) eqn:Hd.
    + destruct (listdir w (path_of (opt_d a))) as [names|]; [| reflexivity].
      destruct Hs as [Hs | (paths & [= <-] & Hex)]; [discriminate |].
      simpl in Hex. inversion Hex as [? ? Hnone | ? ? Hrest]; subst.
      * unfold parsed in Hr. rewrite Hnone in Hr. discriminate.
      * now apply parse_files_unreadable.
    + destruct Hs as [Hs | (paths & [= <-] & Hex)]; [discriminate |].
      inversion Hex as [? ? Hnone | ? ? Hrest]; subst; [| inversion Hrest].
      unfold parsed in Hr. rewrite Hnone in Hr. discriminate.
  - destruct (given (opt_d a)) eqn:Hd.
    + destruct (listdir w (path_of (opt_d a))) as [names|]; [| reflexivity].
      destruct Hs as [Hs | (paths & [= <-] & Hex)]; [discriminate |].
      now apply parse_files_unreadable.
    + destruct Hs as [Hs | (paths & [= <-] & Hex)]; [discriminate |].
      inversion Hex.
Qed.

(** With [-j] and a database that loads, [main] is the part for [-q] on
    that database. *)
Lemma main_loaded (a : args) (db : json) (log : list effect) :
  given (opt_j a) = true ->
  read_database w (path_of (opt_j a)) = Some db ->
  main U w a log
  = run_query_file U w a db
      (log ++ [Print (lit "Loaded existing database from "
                      ++ path_of (opt_j a))]).
Proof.
  intros Hj Hdb. unfold main, load_database, mbind, M_bind.
  rewrite Hj, Hdb. simpl.
  unfold parse_single, parse_folder. rewrite Hj, !andb_false_r. simpl.
  destruct (run_query_file U w a db _) as [log' [e|[]]]; [reflexivity |].
  now rewrite write_outputs_loaded.
Qed.

(** Without [-j], [main] is the two parts that parse, the part for [-q]
    and the part that writes. *)
Lemma main_parsing (a : args) (log : list effect) :
  given (opt_j a) = false ->
  main U w a log
  = (st ← (st ← parse_single U w a (JList [], []); parse_folder U w a st);
     _ ← run_query_file U w a st.1;
     write_outputs w a st.1 st.2) log.
Proof.
  intros Hj. unfold main, load_database. rewrite Hj.
  unfold mbind, M_bind, mret, M_ret.
  destruct (parse_single U w a (JList [], []) log) as [log1 [e1|st1]];
    reflexivity.
Qed.
End RunFacts.


(** X18.  With [-j], a database that loads is the only database of the
    run: the options [-i], [-d] and [-o] and the files and directories of
    the world are not looked at, neither [errors.txt] nor a database file is
    written, and the only file that the run touches is the response
    file. *)
Theorem loaded_database_excludes_parsing (U : ucd) (w w' : world) (a : args) :
  given (opt_j a) = true ->
  read_database w' = read_database w ->
  read_json w' = read_json w ->
  now w' = now w ->
  write w' = write w ->
  run U w' (only_jq a) = run U w a
  /\ Forall (fun e => is_parse_output e = false) (run U w a).1
  /\ Forall (fun e => file_of e = None
                      \/ file_of e = Some (response_file w)) (run U w a).1.
Proof.
  intros Hj Hdb Hjson Hnow Hwrite.
  assert (Hq : forall db log,
            run_query_file U w' (only_jq a) db log
            = run_query_file U w a db log).
  { intros db log. unfold run_query_file, write_file, response_file, only_jq.
    cbn [opt_j opt_i opt_d opt_q opt_o].
    now rewrite Hjson, Hnow, Hwrite. }
  destruct (read_database w (path_of (opt_j a))) as [db|] eqn:Hload.
  - assert (Hrun : run U w a
                   = run_query_file U w a db
                       [Print (lit "Loaded existing database from "
                               ++ path_of (opt_j a))]).
    { unfold run. now rewrite (main_loaded U w a db [] Hj Hload). }
    assert (Hrun' : run U w' (only_jq a) = run U w a).
    { rewrite Hrun. unfold run.
      rewrite (main_loaded U w' (only_jq a) db []).
      - rewrite Hq. reflexivity.
      - exact Hj.
      - rewrite Hdb. exact Hload. }
    split; [exact Hrun' |]. rewrite Hrun.
    destruct (run_query_file_cases U w a db
                [Print (lit "Loaded existing database from "
                        ++ path_of (opt_j a))])
      as [-> | [(e & _ & ->) | [-> | [-> | (rs & ->)]]]];
      cbn [fst app query_outputs];
      (split;
       [repeat constructor
       | repeat (apply Forall_cons_2; [first [now left | now right] |]);
         apply Forall_nil_2]).
  - assert (Hrun : forall w0 a0,
              given (opt_j a0) = true ->
              read_database w0 (path_of (opt_j a0)) = None ->
              run U w0 a0
              = ([Print (lit "Error: Could not load JSON database.")],
                 inr tt)).
    { intros w0 a0 Hj0 H0. unfold run, main, load_database, mbind, M_bind.
      now rewrite Hj0, H0. }
    rewrite (Hrun w a Hj Hload), (Hrun w' (only_jq a)).
    + split; [reflexivity |].
      split; [repeat constructor |].
      apply Forall_cons_2; [now left | apply Forall_nil_2].
    + exact Hj.
    + rewrite Hdb. exact Hload.
Qed.

Lemma loaded_database_excludes_parsing_witness :
  run ascii_only sample_world
    (only_jq {| opt_i := Some (lit "flights.csv"); opt_d := Some (lit "data");
                opt_o := Some (lit "out.json"); opt_j := Some (lit "db.json");
                opt_q := None |})
  = run ascii_only sample_world
      {| opt_i := Some (lit "flights.csv"); opt_d := Some (lit "data");
         opt_o := Some (lit "out.json"); opt_j := Some (lit "db.json");
         opt_q := None |}.
Proof.
  refine (proj1 (loaded_database_excludes_parsing ascii_only sample_world
                   sample_world _ _ _ _ _ _)); reflexivity.
Defined.

(** X19.  With [-j], a database that cannot be loaded ends the run: the
    program prints that it could not load the database and does nothing
    else, whatever the other options; it ends without an exception. *)
Theorem failed_load_stops_run (U : ucd) (w : world) (a : args) :
  given (opt_j a) = true ->
  read_database w (path_of (opt_j a)) = None ->
  run U w a = ([Print (lit "Error: Could not load JSON database.")], inr tt).
Proof.
  intros Hj Hdb. unfold run, main, load_database, mbind, M_bind.
  rewrite Hj, Hdb. reflexivity.
Qed.

Lemma failed_load_stops_run_witness :
  run ascii_only sample_world
    {| opt_i := Some (lit "flights.csv"); opt_d := None; opt_o := None;
       opt_j := Some (lit "missing.json"); opt_q := Some (lit "q.json") |}
  = ([Print (lit "Error: Could not load JSON database.")], inr tt).
Proof.
  apply (failed_load_stops_run ascii_only sample_world); reflexivity.
Defined.





(** X22.  On a database of records of the validator and a batch of
    dictionaries, the query part of [main] is the loop over the fields of
    the records: it gives the responses of [run_queries], or ends with the
    exception of [run_queries].  A single dictionary in the query file is
    answered as the batch of that one dictionary, on any database. *)
Theorem dictionaries_answered_in_turn (U : ucd) (db : list flight)
    (qs : list query) (q : query) :
  answer_queries U (database db) (JList (map JDict qs))
  = match run_queries U db qs with
    | Ok rs => Ok (map to_reply rs)
    | Raise e => Raise e
    end
  /\ (forall all_valid,
        answer_queries U all_valid (JDict q)
        = answer_queries U all_valid (JList [JDict q])).
Proof.
  split; [| reflexivity].
  unfold answer_queries, run_queries. simpl.
  exact (replies_dicts U db qs []).
Qed.



(** X24.  Without [-j], a source that cannot be read ends the run with the
    exception of the read: the file of [-i], the directory of [-d], or one
    of its files whose name ends in [.csv].  Nothing is printed and nothing
    is written, whatever the sources read before it gave. *)
Theorem unreadable_source_ends_run (U : ucd) (w : world) (a : args) :
  given (opt_j a) = false ->
  (sources w a = None
   \/ exists paths, sources w a = Some paths
                    /\ Exists (fun path => read_lines w path = None) paths) ->
  run U w a = ([], inl ReadError).
Proof.
  intros Hj Hs. unfold run. rewrite main_parsing by assumption.
  pose proof (parse_stage_unreadable U w a [] Hj Hs) as Hp.
  unfold mbind, M_bind in *. now rewrite Hp.
Qed.

Lemma unreadable_source_ends_run_witness :
  run ascii_only sample_world
    {| opt_i := Some (lit "flights.csv"); opt_d := Some (lit "nowhere");
       opt_o := None; opt_j := None; opt_q := None |}
  = ([], inl ReadError).
Proof.
  apply (unreadable_source_ends_run ascii_only sample_world).
  - reflexivity.
  - left. reflexivity.
Defined.

(** X12.  In a run that parses its database and accepts a record or more,
    a predicate set is answered exactly when every item has a value of the
    type of its comparison: a number for [price], a timestamp in the format
    for the two bounds.  Otherwise the loop raises.  (The records of a
    parse have their timestamps in the format and a number as their price;
    those of a database loaded with [-j] need not.) *)
Theorem answered_iff_typed (U : ucd) (lines : list text)
    (valid : list flight) (errors : list text) (q : query) :
  parse_csv_file U lines = Ok (valid, errors) ->
  valid <> [] ->
  ((exists ms, matches_of U (JDict q) (database valid) = Ok ms)
   <-> Forall (fun item => item_typed U item = true) q).
Proof.
  intros Hp Hne.
  assert (Htyped : Forall (fun f => flight_typed U f = true) valid).
  { eapply Forall_impl;
      [exact (valid_flights_invariants U lines valid errors Hp) |].
    intros f. apply invariants_typed. }
  rewrite <- (find_matches_answered U q valid Hne Htyped).
  rewrite matches_of_database.
  destruct (find_matches U q valid []) as [ms|e]; split; intros [ms' H];
    try discriminate; eauto.
Qed.

Lemma answered_iff_typed_witness :
  (exists ms,
     matches_of ascii_only (JDict [(lit "price", JStr (lit "cheap"))])
       (database [ab12]) = Ok ms)
  <-> Forall (fun item => item_typed ascii_only item = true)
        [(lit "price", JStr (lit "cheap"))].
Proof.
  apply (answered_iff_typed ascii_only [ab12_line] [ab12] []
           [(lit "price", JStr (lit "cheap"))]).
  - vm_compute. reflexivity.
  - discriminate.
Defined.

(** X15.  The keys [flight_id], [origin] and [destination] ask for
    equality with the stored value and raise nothing on a record that holds
    the key: on a record of the validator the predicate is satisfied
    exactly when its value is the stored string, character for character,
    so a value that is not a string matches no record; on any dictionary
    that holds the key the predicate is satisfied exactly when the two
    values are equal.  A dictionary of a loaded database that lacks the key
    raises [KeyError]. *)
Theorem exact_keys_match_equal_strings (U : ucd) (key : text) (ok : bool)
    (value : json) :
  text_eqb key (lit "flight_id") || text_eqb key (lit "origin")
  || text_eqb key (lit "destination") = true ->
  (forall f,
     exists b,
       check_pair U (of_flight f) ok key value = Ok b
       /\ (b = true <-> ok = true /\ value = JStr (exact_field f key)))
  /\ (forall items v,
        dict_get key items = Some v ->
        check_pair U (JDict items) ok key value = Ok (ok && py_eq v value))
  /\ (forall items,
        dict_get key items = None ->
        check_pair U (JDict items) ok key value = Raise KeyError).
Proof.
  intros Hk. split; [| split].
  - intros f. rewrite check_pair_of_flight. unfold check_item. rewrite Hk.
    eexists. split; [reflexivity |].
    rewrite <- (str_ne_false (exact_field f key) value).
    destruct (str_ne (exact_field f key) value), ok; intuition congruence.
  - intros items v Hv. unfold check_pair, subscript. rewrite Hk, Hv.
    cbn [mbind result_bind]. unfold py_ne.
    now destruct (py_eq v value), ok.
  - intros items Hv. unfold check_pair, subscript. now rewrite Hk, Hv.
Qed.

Lemma exact_keys_match_equal_strings_witness :
  (exists b,
     check_pair ascii_only (of_flight ab12) true (lit "origin") (JInt 5)
     = Ok b
     /\ (b = true <-> true = true /\ JInt 5 = JStr (lit "JFK")))
  /\ check_pair ascii_only
       (JDict [(lit "flight_id", JStr (lit "AB12"))]) true (lit "origin")
       (JStr (lit "JFK"))
     = Raise KeyError.
Proof.
  pose proof (exact_keys_match_equal_strings ascii_only (lit "origin") true)
    as H.
  split.
  - exact (proj1 (H (JInt 5) eq_refl) ab12).
  - apply (proj2 (proj2 (H (JStr (lit "JFK")) eq_refl))). reflexivity.
Defined.

(** X25.  What a database loaded with [-j] does when an element is not a
    record as the validator builds them.  A key that the loop does not name
    never looks at the element.  A key that the loop names raises
    [TypeError] on an element that is no dictionary and [KeyError] on a
    dictionary without the key; and the [price] predicate with a number as
    its bound raises [TypeError] on a dictionary whose price is a string. *)
Theorem loaded_element_errors (U : ucd) (element : json) (ok : bool)
    (key : text) (value : json) :
  (recognized key = false -> check_pair U element ok key value = Ok ok)
  /\ (recognized key = true ->
      (forall items, element <> JDict items) ->
      check_pair U element ok key value = Raise TypeError)
  /\ (recognized key = true ->
      forall items,
        element = JDict items -> dict_get key items = None ->
        check_pair U element ok key value = Raise KeyError)
  /\ (forall items s v,
        element = JDict items ->
        dict_get (lit "price") items = Some (JStr s) ->
        as_number value = Some v ->
        check_pair U element ok (lit "price") value = Raise TypeError).
Proof.
  unfold recognized, check_pair.
  split; [| split; [| split]].
  - intros H. repeat (apply orb_false_elim in H as [H ?]).
    now repeat match goal with Hx : _ = false |- _ => rewrite Hx; clear Hx end.
  - intros H Hnot.
    assert (Hsub : forall k, subscript element k = Raise TypeError).
    { intros k. destruct element; try reflexivity.
      now contradiction (Hnot items). }
    destruct (text_eqb key (lit "flight_id") || text_eqb key (lit "origin")
              || text_eqb key (lit "destination")); [now rewrite Hsub |].
    destruct (text_eqb key (lit "price")); [now rewrite Hsub |].
    destruct (text_eqb key (lit "departure_datetime")); [now rewrite Hsub |].
    destruct (text_eqb key (lit "arrival_datetime")); [now rewrite Hsub |].
    discriminate.
  - intros H items -> Hget.
    assert (Hsub : subscript (JDict items) key = Raise KeyError).
    { unfold subscript. now rewrite Hget. }
    destruct (text_eqb key (lit "flight_id") || text_eqb key (lit "origin")
              || text_eqb key (lit "destination")); [now rewrite Hsub |].
    destruct (text_eqb key (lit "price")) eqn:Hp.
    { apply text_eqb_eq in Hp. subst key. now rewrite Hsub. }
    destruct (text_eqb key (lit "departure_datetime")) eqn:Hd.
    { apply text_eqb_eq in Hd. subst key. now rewrite Hsub. }
    destruct (text_eqb key (lit "arrival_datetime")) eqn:Ha.
    { apply text_eqb_eq in Ha. subst key. now rewrite Hsub. }
    discriminate.
  - intros items s v -> Hget Hv.
    change (text_eqb (lit "price") (lit "flight_id")
            || text_eqb (lit "price") (lit "origin")
            || text_eqb (lit "price") (lit "destination")) with false.
    change (text_eqb (lit "price") (lit "price")) with true.
    cbv iota. unfold subscript. rewrite Hget. cbn [mbind result_bind].
    destruct value; try discriminate; reflexivity.
Qed.
